(** * Ledger derivation and bank reconciliation

    Shallow embedding of the finance module ([calculateStatements],
    [performBankReconciliation] and [getTrendData], with the types of
    types.ts), and the properties of the derived reports.

    Numbers: the TypeScript [number] is an IEEE 754 binary64 number.  The
    development reads the code twice.  The main embedding takes amounts as
    exact integers ([Z], e.g. minor currency units): its additions and
    subtractions are those of the code without rounding, and every equation
    proved of it is an equation of exact arithmetic.  The module [Float64]
    repeats the trial balance and the trend series on binary64 numbers
    (Rocq's primitive floats), with each operation rounded as the runtime
    rounds it; it shows where a statement of exact arithmetic stops short
    of the code.  Amounts are signed: nothing in the code forces them to be
    non-negative. *)

From stdpp Require Import gmap strings list.
From Stdlib Require Import PrimFloat.

Set Warnings "-clear-no-such-hyp,-inexact-float".

Local Open Scope string_scope.
Local Open Scope list_scope.
Local Open Scope Z_scope.

(** ** Data model (types.ts) *)

Inductive AccountCategory := ASSET | LIABILITY | EQUITY | REVENUE | EXPENSE.
Inductive TransactionType := DEBIT | CREDIT.

Global Instance AccountCategory_eq_dec : EqDecision AccountCategory.
Proof. solve_decision. Defined.
Global Instance TransactionType_eq_dec : EqDecision TransactionType.
Proof. solve_decision. Defined.

Record Transaction := mkTransaction {
  tx_id : string;
  tx_date : string;
  tx_description : string;
  tx_accountName : string;
  tx_category : AccountCategory;
  tx_amount : Z;
  tx_type : TransactionType }.

Record TrialBalanceItem := mkTrialBalanceItem {
  tb_accountName : string;
  tb_category : AccountCategory;
  tb_debit : Z;
  tb_credit : Z }.

(** The optional [isTotal] marker is absent from every object this module
    builds, so a row is its label and its amount. *)
Record StatementItem := mkStatementItem {
  label : string;
  amount : Z }.

Record EquityChangeItem := mkEquityChangeItem {
  ec_accountName : string;
  ec_openingBalance : Z;
  ec_additions : Z;
  ec_netIncome : Z;
  ec_withdrawals : Z;
  ec_closingBalance : Z }.

Record FinancialNote := mkFinancialNote {
  noteNumber : Z;
  title : string;
  content : string;
  data : option (list StatementItem) }.

Record BankStatementItem := mkBankStatementItem {
  st_id : string;
  st_date : string;
  st_description : string;
  st_amount : Z }.

Inductive ReconStatus :=
  matched | missing_in_statement | missing_in_book | amount_mismatch.

Global Instance ReconStatus_eq_dec : EqDecision ReconStatus.
Proof. solve_decision. Defined.

Record ReconMatch := mkReconMatch {
  bookEntry : option Transaction;
  statementEntry : option BankStatementItem;
  status : ReconStatus }.

Record IncomeStatement := mkIncomeStatement {
  revenue : list StatementItem;
  expenses : list StatementItem;
  totalRevenue : Z;
  totalExpenses : Z;
  netIncome : Z }.

Record BalanceSheet := mkBalanceSheet {
  assets : list StatementItem;
  liabilities : list StatementItem;
  equity : list StatementItem;
  totalAssets : Z;
  totalLiabilities : Z;
  totalEquity : Z }.

Record CashFlow := mkCashFlow {
  operating : list StatementItem;
  investing : list StatementItem;
  financing : list StatementItem;
  netCashFlow : Z }.

Record Variance := mkVariance {
  revenueActual : Z;
  revenueBudget : Z;
  expenseActual : Z;
  expenseBudget : Z }.

Record FinancialStatements := mkFinancialStatements {
  trialBalance : list TrialBalanceItem;
  incomeStatement : IncomeStatement;
  balanceSheet : BalanceSheet;
  cashFlow : CashFlow;
  equityChanges : list EquityChangeItem;
  notes : list FinancialNote;
  variance : Variance }.

(** ** JavaScript primitives used by the module *)

(** [Map<string, V>]: iteration follows the order in which keys were first
    set, so the map is an association list; [set] on a present key replaces
    the value where it stands, on an absent key it appends. *)
Fixpoint map_get {V} (k : string) (m : list (string * V)) : option V :=
  match m with
  | [] => None
  | (k', v) :: m' => if decide (k' = k) then Some v else map_get k m'
  end.

Fixpoint map_set {V} (k : string) (v : V) (m : list (string * V))
  : list (string * V) :=
  match m with
  | [] => [(k, v)]
  | (k', v') :: m' =>
      if decide (k' = k) then (k', v) :: m' else (k', v') :: map_set k v m'
  end.

(** [s.includes(sub)]: [sub] occurs in [s] as a contiguous substring. *)
Fixpoint includes (s sub : string) : bool :=
  Stdlib.Strings.String.prefix sub s
  || match s with
     | EmptyString => false
     | String _ s' => includes s' sub
     end.

(** [items.reduce((s, i) => s + i.amount, 0)], the additions taken exactly
    (without the rounding of binary64; see [Float64.sum]). *)
Definition reduce_amount (items : list StatementItem) : Z :=
  fold_left (fun s i => s + amount i) items 0.

(** ** calculateStatements *)

Record AccountData := mkAccountData {
  ad_category : AccountCategory;
  ad_debit : Z;
  ad_credit : Z }.

(** [current.debit += tx.amount] or [current.credit += tx.amount],
    by the type of the transaction; the addition is exact here and rounded
    in [Float64.post]. *)
Definition post (tx : Transaction) (current : AccountData) : AccountData :=
  match tx_type tx with
  | DEBIT => mkAccountData (ad_category current)
               (ad_debit current + tx_amount tx) (ad_credit current)
  | CREDIT => mkAccountData (ad_category current)
                (ad_debit current) (ad_credit current + tx_amount tx)
  end.

(** Body of the first [forEach]: fetch the account's record (or a fresh one
    carrying this transaction's category), add the amount on the debit or
    the credit side, store it back. *)
Definition accumulate (accountMap : list (string * AccountData))
    (tx : Transaction) : list (string * AccountData) :=
  let current :=
    default (mkAccountData (tx_category tx) 0 0)
            (map_get (tx_accountName tx) accountMap) in
  map_set (tx_accountName tx) (post tx current) accountMap.

Definition build_accountMap (transactions : list Transaction)
  : list (string * AccountData) :=
  fold_left accumulate transactions [].

Definition to_trialBalance (accountMap : list (string * AccountData))
  : list TrialBalanceItem :=
  map (fun '(accountName, d) =>
         mkTrialBalanceItem accountName (ad_category d) (ad_debit d) (ad_credit d))
      accountMap.

Definition has_category (c : AccountCategory) (i : TrialBalanceItem) : bool :=
  bool_decide (tb_category i = c).

Definition credit_normal (i : TrialBalanceItem) : StatementItem :=
  mkStatementItem (tb_accountName i) (tb_credit i - tb_debit i).

Definition debit_normal (i : TrialBalanceItem) : StatementItem :=
  mkStatementItem (tb_accountName i) (tb_debit i - tb_credit i).

Definition cashAccounts : list string := ["Cash"; "Bank"; "Petty Cash"].

(** [cashAccounts.some(acc => name.includes(acc))] *)
Definition is_cash_account (name : string) : bool :=
  existsb (fun acc => includes name acc) cashAccounts.

Definition equity_change (item : StatementItem) : EquityChangeItem :=
  mkEquityChangeItem (label item)
    (if bool_decide (amount item > 50000) then 50000 else 0)
    (if bool_decide (amount item > 50000) then amount item - 50000 else amount item)
    0 0 (amount item).

(** State of the cash-flow loop: the three arrays [op], [inv], [fin]. *)
Record CashBuckets := mkCashBuckets {
  op : list StatementItem;
  inv : list StatementItem;
  fin : list StatementItem }.

Definition classify (b : CashBuckets) (tx : Transaction) : CashBuckets :=
  let amt := match tx_type tx with
             | DEBIT => tx_amount tx
             | CREDIT => - tx_amount tx
             end in
  let row := mkStatementItem (tx_description tx) amt in
  if bool_decide (tx_category tx = REVENUE) || bool_decide (tx_category tx = EXPENSE)
  then mkCashBuckets (op b ++ [row]) (inv b) (fin b)
  else if bool_decide (tx_category tx = ASSET)
          && negb (is_cash_account (tx_accountName tx))
  then mkCashBuckets (op b) (inv b ++ [row]) (fin b)
  else if bool_decide (tx_category tx = LIABILITY)
          || bool_decide (tx_category tx = EQUITY)
  then mkCashBuckets (op b) (inv b) (fin b ++ [row])
  else b.

Definition cash_buckets (transactions : list Transaction) : CashBuckets :=
  fold_left classify
    (List.filter (fun tx => is_cash_account (tx_accountName tx)) transactions)
    (mkCashBuckets [] [] []).

Definition calculateStatements (transactions : list Transaction)
  : FinancialStatements :=
  (* 1. Trial Balance *)
  let trialBalance := to_trialBalance (build_accountMap transactions) in
  (* 2. Income Statement *)
  let revenueItems :=
    map credit_normal (List.filter (has_category REVENUE) trialBalance) in
  let expenseItems :=
    map debit_normal (List.filter (has_category EXPENSE) trialBalance) in
  let totalRev := reduce_amount revenueItems in
  let totalExp := reduce_amount expenseItems in
  let netInc := totalRev - totalExp in
  (* 3. Balance Sheet *)
  let assetItems :=
    map debit_normal (List.filter (has_category ASSET) trialBalance) in
  let liabilityItems :=
    map credit_normal (List.filter (has_category LIABILITY) trialBalance) in
  let rawEquityItems :=
    map credit_normal (List.filter (has_category EQUITY) trialBalance) in
  let balanceSheetEquity :=
    rawEquityItems ++ [mkStatementItem "Current Period Earnings" netInc] in
  let totalAssets := reduce_amount assetItems in
  let totalLiabilities := reduce_amount liabilityItems in
  let totalEquity := reduce_amount balanceSheetEquity in
  (* 4. Statement of Changes in Equity *)
  let equityChanges :=
    map equity_change rawEquityItems
    ++ [mkEquityChangeItem "Retained Earnings" 0 0 netInc 0 netInc] in
  (* 5. Cash Flow *)
  let b := cash_buckets transactions in
  (* 6. Notes *)
  let notes :=
    [ mkFinancialNote 1 "Basis of Preparation"
        "The financial statements have been prepared on the historical cost basis in accordance with International Financial Reporting Standards (IFRS)."
        None;
      mkFinancialNote 2 "Revenue Recognition"
        "Revenue is recognized when the significant risks and rewards of ownership have been transferred to the customer. For this period, revenue primarily consists of product sales."
        (Some revenueItems);
      mkFinancialNote 3 "Cash and Cash Equivalents"
        "Cash and cash equivalents comprise cash on hand and demand deposits with banks."
        (Some (List.filter (fun a => is_cash_account (label a)) assetItems));
      mkFinancialNote 4 "Property, Plant and Equipment"
        "Equipment is stated at cost less accumulated depreciation. Depreciation is calculated on a straight-line basis over the estimated useful lives of the assets."
        (Some (List.filter (fun a => negb (is_cash_account (label a))) assetItems)) ] in
  mkFinancialStatements
    trialBalance
    (mkIncomeStatement revenueItems expenseItems totalRev totalExp netInc)
    (mkBalanceSheet assetItems liabilityItems balanceSheetEquity
       totalAssets totalLiabilities totalEquity)
    (mkCashFlow (op b) (inv b) (fin b)
       (totalAssets - totalLiabilities - totalEquity + netInc))
    equityChanges
    notes
    (mkVariance totalRev 65000 totalExp 15000).

(** ** performBankReconciliation *)

Definition signed_amount (book : Transaction) : Z :=
  match tx_type book with
  | DEBIT => tx_amount book
  | CREDIT => - tx_amount book
  end.

(** State of the matcher: the [matches] array and the set of consumed
    statement ids. *)
Definition recon_book (statementEntries : list BankStatementItem)
    (s : list ReconMatch * gset string) (book : Transaction)
  : list ReconMatch * gset string :=
  let '(matches, matchedStatementIds) := s in
  let bookAmount := signed_amount book in
  match List.find
          (fun st => bool_decide (st_date st = tx_date book)
                     && bool_decide (st_amount st = bookAmount)
                     && negb (bool_decide (st_id st ∈ matchedStatementIds)))
          statementEntries with
  | Some m =>
      (matches ++ [mkReconMatch (Some book) (Some m) matched],
       matchedStatementIds ∪ {[ st_id m ]})
  | None =>
      (matches ++ [mkReconMatch (Some book) None missing_in_statement],
       matchedStatementIds)
  end.

Definition recon_statement (matchedStatementIds : gset string)
    (matches : list ReconMatch) (st : BankStatementItem) : list ReconMatch :=
  if bool_decide (st_id st ∈ matchedStatementIds) then matches
  else matches ++ [mkReconMatch None (Some st) missing_in_book].

Definition performBankReconciliation (bookEntries : list Transaction)
    (statementEntries : list BankStatementItem) : list ReconMatch :=
  let '(matches, matchedStatementIds) :=
    fold_left (recon_book statementEntries) bookEntries ([], ∅) in
  fold_left (recon_statement matchedStatementIds) statementEntries matches.

(** ** getTrendData *)

Record TrendData := mkTrendData {
  tr_revenue : Z;
  tr_expense : Z;
  tr_profit : Z }.

Record TrendRow := mkTrendRow {
  month : string;
  row_revenue : Z;
  row_expense : Z;
  row_profit : Z }.

Definition months : list string :=
  ["Jan"; "Feb"; "Mar"; "Apr"; "May"; "Jun";
   "Jul"; "Aug"; "Sep"; "Oct"; "Nov"; "Dec"].

Section Trend.
(** [new Date(s).getMonth()] belongs to the JavaScript runtime (parsing
    and the local time zone decide the result).  It is a parameter here:
    [None] stands for the [NaN] of an invalid date, [Some i] for a month
    index. *)
Variable getMonth : string -> option nat.

(** [months[monthIndex]]: [undefined] ([None]) when the index is [NaN]. *)
Definition monthLabel_of (tx : Transaction) : option string :=
  i ← getMonth (tx_date tx); months !! i.

(** Body of the loop.  The map is keyed by the label, and [undefined] is
    a possible key of a JavaScript [Map].  The additions and the
    subtraction are exact here and rounded in [Float64.trend_step]. *)
Definition trend_step (dataMap : gmap (option string) TrendData)
    (tx : Transaction) : gmap (option string) TrendData :=
  let monthLabel := monthLabel_of tx in
  let current := default (mkTrendData 0 0 0) (dataMap !! monthLabel) in
  let current1 :=
    if bool_decide (tx_category tx = REVENUE)
    then mkTrendData (tr_revenue current + tx_amount tx)
                     (tr_expense current) (tr_profit current)
    else if bool_decide (tx_category tx = EXPENSE)
    then mkTrendData (tr_revenue current)
                     (tr_expense current + tx_amount tx) (tr_profit current)
    else current in
  let current2 :=
    mkTrendData (tr_revenue current1) (tr_expense current1)
                (tr_revenue current1 - tr_expense current1) in
  <[ monthLabel := current2 ]> dataMap.

Definition trend_map (transactions : list Transaction)
  : gmap (option string) TrendData :=
  fold_left trend_step transactions ∅.

Definition getTrendData (transactions : list Transaction) : list TrendRow :=
  let dataMap := trend_map transactions in
  map (fun m =>
         let d := default (mkTrendData 0 0 0) (dataMap !! Some m) in
         mkTrendRow m (tr_revenue d) (tr_expense d) (tr_profit d))
      months.
End Trend.

(** ** Sample data of the module *)

Definition sampleTransactions : list Transaction :=
  [ mkTransaction "1" "2023-10-01" "Initial Capital" "Cash" ASSET 50000 DEBIT;
    mkTransaction "2" "2023-10-01" "Initial Capital" "Common Stock" EQUITY 50000 CREDIT;
    mkTransaction "3" "2023-10-05" "Monthly Rent" "Rent Expense" EXPENSE 2000 DEBIT;
    mkTransaction "4" "2023-10-05" "Monthly Rent" "Cash" ASSET 2000 CREDIT;
    mkTransaction "5" "2023-10-10" "Product Sale" "Cash" ASSET 12000 DEBIT;
    mkTransaction "6" "2023-10-10" "Product Sale" "Sales Revenue" REVENUE 12000 CREDIT;
    mkTransaction "7" "2023-10-15" "Office Equipment" "Equipment" ASSET 5000 DEBIT;
    mkTransaction "8" "2023-10-15" "Office Equipment" "Cash" ASSET 5000 CREDIT;
    mkTransaction "9" "2023-10-20" "Employee Salaries" "Payroll Expense" EXPENSE 4500 DEBIT;
    mkTransaction "10" "2023-10-20" "Employee Salaries" "Cash" ASSET 4500 CREDIT;
    mkTransaction "11" "2023-09-10" "Prior Sale" "Sales Revenue" REVENUE 40000 CREDIT;
    mkTransaction "12" "2023-09-15" "Prior Rent" "Rent Expense" EXPENSE 2000 DEBIT ].

Definition sampleBankStatement : list BankStatementItem :=
  [ mkBankStatementItem "st1" "2023-10-01" "DEPOSIT CAPITAL" 50000;
    mkBankStatementItem "st2" "2023-10-05" "CHECK #101 RENT" (-2000);
    mkBankStatementItem "st3" "2023-10-10" "POS CREDIT SALE" 12000;
    mkBankStatementItem "st4" "2023-10-15" "EQUIPMENT PURCHASE" (-5000);
    mkBankStatementItem "st5" "2023-10-22" "BANK FEE" (-25) ].

(** ** Reference notions used to state the properties *)

Fixpoint Zsum (l : list Z) : Z :=
  match l with
  | [] => 0
  | x :: l' => x + Zsum l'
  end.

(** The distinct names of a list, each at the place of its first occurrence. *)
Fixpoint first_seen (names : list string) : list string :=
  match names with
  | [] => []
  | n :: rest => n :: filter (λ x, x ≠ n) (first_seen rest)
  end.

Definition on_account (name : string) (t : TransactionType) (tx : Transaction)
  : Prop :=
  tx_accountName tx = name ∧ tx_type tx = t.

Global Instance on_account_dec name t tx : Decision (on_account name t tx).
Proof. unfold on_account. apply _. Defined.

(** Sum of the amounts that the transactions of type [t] post to [name]. *)
Definition posted (name : string) (t : TransactionType)
    (txs : list Transaction) : Z :=
  Zsum (map tx_amount (filter (on_account name t) txs)).

(** First transaction of the list that names the account. *)
Definition first_tx (name : string) (txs : list Transaction)
  : option Transaction :=
  List.find (fun tx => bool_decide (tx_accountName tx = name)) txs.

(** Sum of the amounts of all transactions of one type. *)
Definition total_of_type (t : TransactionType) (txs : list Transaction) : Z :=
  Zsum (map tx_amount (filter (λ tx, tx_type tx = t) txs)).

(** ** Further notions, and fixtures *)

(** Debit less credit of a trial-balance row, and of a map entry. *)
Definition net (i : TrialBalanceItem) : Z := tb_debit i - tb_credit i.

Definition net_data (e : string * AccountData) : Z :=
  ad_debit e.2 - ad_credit e.2.

(** The paired fixture of the specification: three debit/credit pairs. *)
Definition pairedLedger : list Transaction := firstn 6 sampleTransactions.

(** What the roll-forward row [row] of a raw equity row [raw] holds. *)
Definition rolls_forward (raw : StatementItem) (row : EquityChangeItem) : Prop :=
  ec_accountName row = label raw
  ∧ (amount raw > 50000 →
       ec_openingBalance row = 50000 ∧ ec_additions row = amount raw - 50000)
  ∧ (amount raw ≤ 50000 →
       ec_openingBalance row = 0 ∧ ec_additions row = amount raw)
  ∧ ec_netIncome row = 0
  ∧ ec_withdrawals row = 0
  ∧ ec_closingBalance row = amount raw.

(** The statuses the matcher produces. *)
Definition produced_status (r : ReconMatch) : Prop :=
  status r ≠ amount_mismatch
  ∧ (status r = matched ∨ status r = missing_in_statement
     ∨ status r = missing_in_book).

(** A statement entry agrees with a book entry when the dates are identical
    and the statement amount is the signed book amount. *)
Definition agrees (book : Transaction) (st : BankStatementItem) : bool :=
  bool_decide (st_date st = tx_date book)
  && bool_decide (st_amount st = signed_amount book).

(** The first element that satisfies [p], and the list without it. *)
Fixpoint take_first {A} (p : A → bool) (l : list A) : option (A * list A) :=
  match l with
  | [] => None
  | x :: l' =>
      if p x then Some (x, l')
      else match take_first p l' with
           | Some (y, r) => Some (y, x :: r)
           | None => None
           end
  end.

(** The contract in the words of the specification, on the statement
    entries themselves: each book entry, in order, takes the first entry
    not yet consumed that agrees with it, or is reported missing in the
    statement; the result carries the entries never consumed, in their
    original order. *)
Fixpoint match_books (books : list Transaction)
    (unconsumed : list BankStatementItem)
  : list ReconMatch * list BankStatementItem :=
  match books with
  | [] => ([], unconsumed)
  | book :: rest =>
      match take_first (agrees book) unconsumed with
      | Some (st, unconsumed') =>
          let '(ms, u) := match_books rest unconsumed' in
          (mkReconMatch (Some book) (Some st) matched :: ms, u)
      | None =>
          let '(ms, u) := match_books rest unconsumed in
          (mkReconMatch (Some book) None missing_in_statement :: ms, u)
      end
  end.

Definition reconciliation_contract (books : list Transaction)
    (sts : list BankStatementItem) : list ReconMatch :=
  let '(ms, u) := match_books books sts in
  ms ++ map (fun st => mkReconMatch None (Some st) missing_in_book) u.

(** Entries whose id is not in the consumed set. *)
Definition not_consumed (ids : gset string) (sts : list BankStatementItem)
  : list BankStatementItem :=
  List.filter (fun st => negb (bool_decide (st_id st ∈ ids))) sts.

(** Number of records of status [s]. *)
Definition count_status (s : ReconStatus) (out : list ReconMatch) : nat :=
  length (List.filter (fun r => bool_decide (status r = s)) out).

(** Two statement entries with equal date and equal amount. *)
Definition same_value (a b : BankStatementItem) : Prop :=
  st_date a = st_date b ∧ st_amount a = st_amount b.

(** Value of a decimal digit. *)
Definition digit (a : Stdlib.Strings.Ascii.ascii) : option nat :=
  let n := Stdlib.Strings.Ascii.nat_of_ascii a in
  if ((48 <=? n) && (n <=? 57))%nat then Some (n - 48)%nat else None.

(** An instance of the parameter [getMonth] for the examples: the number
    written at positions 5 and 6 of the string, less one, when it lies
    between 1 and 12.  On the dates of the fixtures ([YYYY-MM-DD] with a day
    that exists) this is the index [new Date(s).getMonth()] returns in a
    runtime whose local zone is UTC.  It is no model of [Date]: it neither
    checks the day nor reads other formats nor follows the local zone. *)
Definition iso_month (s : string) : option nat :=
  a ← Stdlib.Strings.String.get 5 s;
  b ← Stdlib.Strings.String.get 6 s;
  x ← digit a;
  y ← digit b;
  let m := (10 * x + y)%nat in
  if ((1 <=? m) && (m <=? 12))%nat then Some (m - 1)%nat else None.

(** The default bucket [{ revenue: 0, expense: 0, profit: 0 }]. *)
Definition zeroTrend : TrendData := mkTrendData 0 0 0.

(** [tx] is of category [c] and falls under the month label [k]. *)
Definition in_month (getMonth : string → option nat) (k : option string)
    (c : AccountCategory) (tx : Transaction) : Prop :=
  monthLabel_of getMonth tx = k ∧ tx_category tx = c.

Global Instance in_month_dec g k c tx : Decision (in_month g k c tx).
Proof. unfold in_month. apply _. Defined.

(** Sum of the amounts of the transactions of category [c] whose month
    label is [k]. *)
Definition month_total (getMonth : string → option nat) (k : option string)
    (c : AccountCategory) (txs : list Transaction) : Z :=
  Zsum (map tx_amount (filter (in_month getMonth k c) txs)).

(** The bucket read at key [k], with the default of the code. *)
Abbreviation bucket m k := (default zeroTrend (m !! k)).

(** Every bucket holds its revenue less its expense as profit. *)
Definition profit_ok (m : gmap (option string) TrendData) : Prop :=
  ∀ k, tr_profit (bucket m k) = tr_revenue (bucket m k) - tr_expense (bucket m k).

(** Two book entries of the same day and amount, and a statement in which
    two entries (x1 and x3) carry that day and amount. *)
Definition rentBooks : list Transaction :=
  [ mkTransaction "b1" "2023-10-05" "Monthly Rent" "Cash" ASSET 2000 CREDIT;
    mkTransaction "b2" "2023-10-05" "Storage Rent" "Cash" ASSET 2000 CREDIT ].

Definition x1 := mkBankStatementItem "x1" "2023-10-05" "CHECK #101 RENT" (-2000).
Definition x2 := mkBankStatementItem "x2" "2023-10-22" "BANK FEE" (-25).
Definition x3 := mkBankStatementItem "x3" "2023-10-05" "CHECK #102 RENT" (-2000).

Definition rentStatement : list BankStatementItem := [x1; x2; x3].
Definition rentStatement_reordered : list BankStatementItem := [x3; x2; x1].

(** A statement in which two entries of different amounts share the id
    [a], and its reordering that exchanges the two entries of amount 5. *)
Definition dupBooks : list Transaction :=
  [ mkTransaction "b1" "2023-10-05" "Deposit" "Cash" ASSET 5 DEBIT;
    mkTransaction "b2" "2023-10-05" "Deposit" "Cash" ASSET 7 DEBIT ].

Definition dupStatement : list BankStatementItem :=
  [ mkBankStatementItem "a" "2023-10-05" "DEPOSIT" 5;
    mkBankStatementItem "a" "2023-10-05" "DEPOSIT" 7;
    mkBankStatementItem "b" "2023-10-05" "DEPOSIT" 5 ].

Definition dupStatement_reordered : list BankStatementItem :=
  [ mkBankStatementItem "b" "2023-10-05" "DEPOSIT" 5;
    mkBankStatementItem "a" "2023-10-05" "DEPOSIT" 7;
    mkBankStatementItem "a" "2023-10-05" "DEPOSIT" 5 ].

(** ** Further notions for the statements *)

(** Sum of a column of the map: [g] over the stored records. *)
Definition column (g : AccountData → Z) (m : list (string * AccountData)) : Z :=
  Zsum (map (fun e => g e.2) m).

(** Debit less credit of a record of category [c], zero for the others. *)
Definition net_in (c : AccountCategory) (d : AccountData) : Z :=
  if decide (ad_category d = c) then ad_debit d - ad_credit d else 0.

(** Debits less credits over the transactions of category [c]. *)
Definition category_net (c : AccountCategory) (txs : list Transaction) : Z :=
  Zsum (map signed_amount (filter (λ tx, tx_category tx = c) txs)).

(** Every account name comes with one category throughout the ledger. *)
Definition single_category (txs : list Transaction) : Prop :=
  Forall (fun t1 =>
            Forall (fun t2 => tx_accountName t1 = tx_accountName t2 →
                              tx_category t1 = tx_category t2) txs) txs.

(** The stored category of every account agrees with the transactions
    still to come. *)
Definition agrees_with (m : list (string * AccountData))
    (txs : list Transaction) : Prop :=
  ∀ tx d, tx ∈ txs → map_get (tx_accountName tx) m = Some d →
          ad_category d = tx_category tx.

(** Footer of the equity table of the page: the four column totals and,
    as closing total, the total equity of the balance sheet. *)
Record EquityFooter := mkEquityFooter {
  ft_opening : Z;
  ft_netIncome : Z;
  ft_additions : Z;
  ft_withdrawals : Z;
  ft_closing : Z }.

Definition equityFooter (statements : FinancialStatements) : EquityFooter :=
  mkEquityFooter
    (fold_left (fun s r => s + ec_openingBalance r) (equityChanges statements) 0)
    (fold_left (fun s r => s + ec_netIncome r) (equityChanges statements) 0)
    (fold_left (fun s r => s + ec_additions r) (equityChanges statements) 0)
    (fold_left (fun s r => s + ec_withdrawals r) (equityChanges statements) 0)
    (totalEquity (balanceSheet statements)).

(** The row a cash-account transaction contributes to its bucket. *)
Definition cash_row (tx : Transaction) : StatementItem :=
  mkStatementItem (tx_description tx) (signed_amount tx).

Definition is_operating (tx : Transaction) : bool :=
  bool_decide (tx_category tx = REVENUE) || bool_decide (tx_category tx = EXPENSE).

Definition is_financing (tx : Transaction) : bool :=
  bool_decide (tx_category tx = LIABILITY) || bool_decide (tx_category tx = EQUITY).

Definition on_cash_account (tx : Transaction) : bool :=
  is_cash_account (tx_accountName tx).

(** ** Further notions for the reconciliation *)

(** The test of [find] in the first loop. *)
Definition unconsumed_match (book : Transaction) (ids : gset string)
    (st : BankStatementItem) : bool :=
  bool_decide (st_date st = tx_date book)
  && bool_decide (st_amount st = signed_amount book)
  && negb (bool_decide (st_id st ∈ ids)).

(** The first loop in direct style: the records it pushes and the set of
    consumed ids it ends with, from a set [ids]. *)
Fixpoint book_pass (sts : list BankStatementItem) (books : list Transaction)
    (ids : gset string) : list ReconMatch * gset string :=
  match books with
  | [] => ([], ids)
  | book :: rest =>
      match List.find (unconsumed_match book ids) sts with
      | Some m =>
          let '(ms, ids') := book_pass sts rest (ids ∪ {[ st_id m ]}) in
          (mkReconMatch (Some book) (Some m) matched :: ms, ids')
      | None =>
          let '(ms, ids') := book_pass sts rest ids in
          (mkReconMatch (Some book) None missing_in_statement :: ms, ids')
      end
  end.

(** Ids of the statement entries paired in matched records. *)
Definition matched_ids (out : list ReconMatch) : list string :=
  omap (fun r => if bool_decide (status r = matched)
                 then st_id <$> statementEntry r else None) out.

(** What a record of the output holds, by status. *)
Definition well_formed_record (books : list Transaction)
    (sts : list BankStatementItem) (r : ReconMatch) : Prop :=
  match status r with
  | matched =>
      ∃ b st, bookEntry r = Some b ∧ statementEntry r = Some st
              ∧ b ∈ books ∧ st ∈ sts
              ∧ st_date st = tx_date b ∧ st_amount st = signed_amount b
  | missing_in_statement =>
      statementEntry r = None ∧ ∃ b, bookEntry r = Some b ∧ b ∈ books
  | missing_in_book =>
      bookEntry r = None ∧ ∃ st, statementEntry r = Some st ∧ st ∈ sts
  | amount_mismatch => False
  end.

(** The page's selection of the book entries and its reconciliation
    against the sample statement. *)
Definition bankTransactions (transactions : list Transaction)
  : list Transaction :=
  List.filter (fun t => bool_decide (tx_accountName t = "Cash")) transactions.

Definition reconMatches (transactions : list Transaction) : list ReconMatch :=
  performBankReconciliation (bankTransactions transactions) sampleBankStatement.

(** ** Further notions for the trend series *)

(** The transaction falls under one of the twelve month labels. *)
Definition dated (getMonth : string → option nat) (tx : Transaction) : bool :=
  match monthLabel_of getMonth tx with
  | Some _ => true
  | None => false
  end.

(** The row of month [m] as the sums over the transactions of that month. *)
Definition month_row (getMonth : string → option nat)
    (txs : list Transaction) (m : string) : TrendRow :=
  mkTrendRow m
    (month_total getMonth (Some m) REVENUE txs)
    (month_total getMonth (Some m) EXPENSE txs)
    (month_total getMonth (Some m) REVENUE txs
     - month_total getMonth (Some m) EXPENSE txs).

(** Sum of the amounts of the transactions of category [c]. *)
Definition category_total (c : AccountCategory) (txs : list Transaction) : Z :=
  Zsum (map tx_amount (filter (λ tx, tx_category tx = c) txs)).

(** ** Notions that do not go through the code's own tests *)

(** The sum of a list in list order, from 0. *)
Definition sum_in_order (l : list Z) : Z := fold_left Z.add l 0.

(** The rows of category [c], read off the category field of the rows. *)
Definition rows_of_category (c : AccountCategory)
    (tb : list TrialBalanceItem) : list TrialBalanceItem :=
  filter (λ i, tb_category i = c) tb.

(** [tx] is of category [c] and its date has month index [i] (0 for
    January). *)
Definition in_month_index (getMonth : string → option nat) (i : nat)
    (c : AccountCategory) (tx : Transaction) : Prop :=
  getMonth (tx_date tx) = Some i ∧ tx_category tx = c.

Global Instance in_month_index_dec g i c tx : Decision (in_month_index g i c tx).
Proof. unfold in_month_index. apply _. Defined.

(** Sum, in ledger order, of the amounts of the transactions of category
    [c] whose date has month index [i]. *)
Definition month_sum (getMonth : string → option nat) (i : nat)
    (c : AccountCategory) (txs : list Transaction) : Z :=
  sum_in_order (map tx_amount (filter (in_month_index getMonth i c) txs)).

(** ** The same code on binary64 numbers

    The trial balance of [calculateStatements] and [getTrendData] with
    [number] as IEEE 754 binary64: every [+=] and [-] is the rounded
    operation of the runtime (round to nearest, ties to even), and the
    literal [0] is the float zero.  Account names, categories, types and
    the map are as above. *)
Module Float64.

Record Transaction := mkTransaction {
  tx_id : string;
  tx_date : string;
  tx_description : string;
  tx_accountName : string;
  tx_category : AccountCategory;
  tx_amount : float;
  tx_type : TransactionType }.

Record TrialBalanceItem := mkTrialBalanceItem {
  tb_accountName : string;
  tb_category : AccountCategory;
  tb_debit : float;
  tb_credit : float }.

Record AccountData := mkAccountData {
  ad_category : AccountCategory;
  ad_debit : float;
  ad_credit : float }.

(** [current.debit += tx.amount] or [current.credit += tx.amount]. *)
Definition post (tx : Transaction) (current : AccountData) : AccountData :=
  match tx_type tx with
  | DEBIT => mkAccountData (ad_category current)
               (PrimFloat.add (ad_debit current) (tx_amount tx))
               (ad_credit current)
  | CREDIT => mkAccountData (ad_category current)
                (ad_debit current)
                (PrimFloat.add (ad_credit current) (tx_amount tx))
  end.

Definition accumulate (accountMap : list (string * AccountData))
    (tx : Transaction) : list (string * AccountData) :=
  let current :=
    default (mkAccountData (tx_category tx) 0%float 0%float)
            (map_get (tx_accountName tx) accountMap) in
  map_set (tx_accountName tx) (post tx current) accountMap.

Definition build_accountMap (transactions : list Transaction)
  : list (string * AccountData) :=
  fold_left accumulate transactions [].

Definition to_trialBalance (accountMap : list (string * AccountData))
  : list TrialBalanceItem :=
  map (fun '(accountName, d) =>
         mkTrialBalanceItem accountName (ad_category d) (ad_debit d) (ad_credit d))
      accountMap.

(** The [trialBalance] of the statements [calculateStatements] returns. *)
Definition trialBalance (transactions : list Transaction)
  : list TrialBalanceItem :=
  to_trialBalance (build_accountMap transactions).

(** [xs.reduce((s, x) => s + x, 0)]: the sum in list order. *)
Definition sum (xs : list float) : float :=
  fold_left PrimFloat.add xs 0%float.

Record TrendData := mkTrendData {
  tr_revenue : float;
  tr_expense : float;
  tr_profit : float }.

Record TrendRow := mkTrendRow {
  month : string;
  row_revenue : float;
  row_expense : float;
  row_profit : float }.

Definition monthLabel_of (getMonth : string → option nat) (tx : Transaction)
  : option string :=
  i ← getMonth (tx_date tx); months !! i.

Definition trend_step (getMonth : string → option nat)
    (dataMap : gmap (option string) TrendData) (tx : Transaction)
  : gmap (option string) TrendData :=
  let monthLabel := monthLabel_of getMonth tx in
  let current :=
    default (mkTrendData 0%float 0%float 0%float) (dataMap !! monthLabel) in
  let current1 :=
    if bool_decide (tx_category tx = REVENUE)
    then mkTrendData (PrimFloat.add (tr_revenue current) (tx_amount tx))
                     (tr_expense current) (tr_profit current)
    else if bool_decide (tx_category tx = EXPENSE)
    then mkTrendData (tr_revenue current)
                     (PrimFloat.add (tr_expense current) (tx_amount tx))
                     (tr_profit current)
    else current in
  let current2 :=
    mkTrendData (tr_revenue current1) (tr_expense current1)
                (PrimFloat.sub (tr_revenue current1) (tr_expense current1)) in
  <[ monthLabel := current2 ]> dataMap.

Definition getTrendData (getMonth : string → option nat)
    (transactions : list Transaction) : list TrendRow :=
  let dataMap := fold_left (trend_step getMonth) transactions ∅ in
  map (fun m =>
         let d := default (mkTrendData 0%float 0%float 0%float)
                          (dataMap !! Some m) in
         mkTrendRow m (tr_revenue d) (tr_expense d) (tr_profit d))
      months.

End Float64.

(** Three debits to the cash account, of 0.1, 0.2 and 0.3. *)
Definition dimes : list Float64.Transaction :=
  [ Float64.mkTransaction "d1" "2023-10-01" "Deposit" "Cash" ASSET 0.1%float DEBIT;
    Float64.mkTransaction "d2" "2023-10-02" "Deposit" "Cash" ASSET 0.2%float DEBIT;
    Float64.mkTransaction "d3" "2023-10-03" "Deposit" "Cash" ASSET 0.3%float DEBIT ].

(** Three sales: 0.3 in January, 0.2 in February, 0.1 in January. *)
Definition winterSales : list Float64.Transaction :=
  [ Float64.mkTransaction "s1" "2023-01-05" "Sale" "Sales Revenue" REVENUE
      0.3%float CREDIT;
    Float64.mkTransaction "s2" "2023-02-05" "Sale" "Sales Revenue" REVENUE
      0.2%float CREDIT;
    Float64.mkTransaction "s3" "2023-01-20" "Sale" "Sales Revenue" REVENUE
      0.1%float CREDIT ].

(** * Properties *)

(** ** Sums *)

Lemma Zsum_app l k : Zsum (l ++ k) = Zsum l + Zsum k.
Proof. induction l as [|x l IH]; simpl; lia. Qed.

Lemma Zsum_Permutation l k : l ≡ₚ k → Zsum l = Zsum k.
Proof. induction 1; simpl; lia. Qed.

Lemma fold_left_amount items a :
  fold_left (fun s i => s + amount i) items a = a + Zsum (map amount items).
Proof.
  revert a. induction items as [|i items IH]; intros a; simpl.
  - lia.
  - rewrite IH. lia.
Qed.

Lemma reduce_amount_Zsum items : reduce_amount items = Zsum (map amount items).
Proof. unfold reduce_amount. rewrite fold_left_amount. lia. Qed.

(** ** The insertion-ordered map *)

Lemma map_get_set {V} n k (v : V) m :
  map_get n (map_set k v m) = if decide (k = n) then Some v else map_get n m.
Proof.
  induction m as [|[k' v'] m IH]; simpl.
  - repeat case_decide; congruence.
  - repeat (case_decide; simpl); try congruence.
Qed.

Lemma keys_map_set {V} k (v : V) m :
  map fst (map_set k v m) =
  if decide (k ∈ map fst m) then map fst m else map fst m ++ [k].
Proof.
  induction m as [|[k' v'] m IH]; simpl.
  - destruct (decide (k ∈ [])) as [H|H]; [|done]. by apply elem_of_nil in H.
  - destruct (decide (k' = k)) as [->|Hne]; simpl.
    + rewrite decide_True; [done | by left].
    + rewrite IH. destruct (decide (k ∈ map fst m)) as [Hin|Hnin].
      * rewrite decide_True; [done | by right].
      * rewrite decide_False; [done |].
        rewrite elem_of_cons. naive_solver.
Qed.

Lemma map_get_Some_in {V} k (v : V) m : map_get k m = Some v → (k, v) ∈ m.
Proof.
  induction m as [|[k' v'] m IH]; simpl; [done |].
  case_decide; intros ?; simplify_eq.
  - by left.
  - right. auto.
Qed.

Lemma in_map_get {V} k (v : V) m :
  NoDup (map fst m) → (k, v) ∈ m → map_get k m = Some v.
Proof.
  induction m as [|[k' v'] m IH]; simpl; intros Hnd Hin.
  - by apply elem_of_nil in Hin.
  - apply NoDup_cons in Hnd as [Hk' Hnd].
    apply elem_of_cons in Hin as [Heq|Hin].
    + simplify_eq. by rewrite decide_True.
    + rewrite decide_False; [auto |].
      intros ->. apply Hk'. apply list_elem_of_In, in_map_iff.
      exists (k, v). split; [done | by apply list_elem_of_In].
Qed.

(** ** first_seen *)

Lemma elem_of_first_seen x names : x ∈ first_seen names ↔ x ∈ names.
Proof.
  induction names as [|n names IH]; simpl; [done |].
  rewrite !elem_of_cons, list_elem_of_filter, IH.
  destruct (decide (x = n)); naive_solver.
Qed.

Lemma NoDup_first_seen names : NoDup (first_seen names).
Proof.
  induction names as [|n names IH]; simpl; [constructor |].
  apply NoDup_cons. split.
  - rewrite list_elem_of_filter. naive_solver.
  - by apply NoDup_filter.
Qed.

(** ** Trial balance *)

Lemma map_get_accumulate n m tx :
  map_get n (accumulate m tx) =
  if decide (tx_accountName tx = n)
  then Some (post tx (default (mkAccountData (tx_category tx) 0 0) (map_get n m)))
  else map_get n m.
Proof.
  unfold accumulate. rewrite map_get_set.
  case_decide; [subst n |]; done.
Qed.

Lemma keys_accumulate m tx :
  map fst (accumulate m tx) =
  if decide (tx_accountName tx ∈ map fst m) then map fst m
  else map fst m ++ [tx_accountName tx].
Proof. unfold accumulate. apply keys_map_set. Qed.

Lemma keys_fold_accumulate txs m :
  map fst (fold_left accumulate txs m) =
  map fst m ++ filter (λ x, x ∉ map fst m) (first_seen (map tx_accountName txs)).
Proof.
  revert m. induction txs as [|tx txs IH]; intros m; simpl.
  - by rewrite filter_nil, app_nil_r.
  - rewrite IH, keys_accumulate. set (n := tx_accountName tx).
    destruct (decide (n ∈ map fst m)) as [Hin|Hnin].
    + rewrite filter_cons_False by naive_solver.
      rewrite list_filter_filter. f_equal.
      apply list_filter_iff. intros x. naive_solver.
    + rewrite filter_cons_True by done.
      rewrite <- app_assoc. simpl. do 2 f_equal.
      rewrite list_filter_filter.
      apply list_filter_iff. intros x.
      rewrite not_elem_of_app, list_elem_of_singleton. naive_solver.
Qed.

Lemma keys_build_accountMap txs :
  map fst (build_accountMap txs) = first_seen (map tx_accountName txs).
Proof.
  unfold build_accountMap. rewrite keys_fold_accumulate. simpl.
  induction (first_seen _) as [|x l IH]; [done |].
  rewrite filter_cons_True; [by f_equal |].
  intros H. by apply elem_of_nil in H.
Qed.

Lemma posted_cons name t tx txs :
  posted name t (tx :: txs) =
  (if decide (on_account name t tx) then tx_amount tx else 0) + posted name t txs.
Proof.
  unfold posted. rewrite filter_cons. by case_decide.
Qed.

Lemma map_get_fold_accumulate n txs m :
  map_get n (fold_left accumulate txs m) =
  match map_get n m with
  | Some d =>
      Some (mkAccountData (ad_category d)
              (ad_debit d + posted n DEBIT txs)
              (ad_credit d + posted n CREDIT txs))
  | None =>
      match first_tx n txs with
      | Some tx0 =>
          Some (mkAccountData (tx_category tx0)
                  (posted n DEBIT txs) (posted n CREDIT txs))
      | None => None
      end
  end.
Proof.
  revert m. induction txs as [|tx txs IH]; intros m.
  - simpl. destruct (map_get n m) as [[c d k]|]; [|done].
    unfold posted; simpl. do 2 f_equal; lia.
  - cbn [fold_left]. rewrite IH, map_get_accumulate, !posted_cons.
    unfold first_tx. cbn [List.find]. unfold on_account, post.
    destruct tx as [i dt ds an cat a ty]; cbn [tx_accountName tx_type tx_category tx_amount].
    destruct (decide (an = n)) as [Hn|Hn].
    + rewrite (bool_decide_eq_true_2 _ Hn).
      destruct (map_get n m) as [[c d k]|]; destruct ty; simpl;
        repeat (case_decide; try naive_solver); f_equal; f_equal; lia.
    + rewrite (bool_decide_eq_false_2 _ Hn).
      rewrite !decide_False by naive_solver.
      by rewrite !Z.add_0_l.
Qed.

Lemma map_get_build_accountMap n txs :
  map_get n (build_accountMap txs) =
  (fun tx0 => mkAccountData (tx_category tx0)
                (posted n DEBIT txs) (posted n CREDIT txs)) <$> first_tx n txs.
Proof.
  unfold build_accountMap. rewrite map_get_fold_accumulate. simpl.
  by destruct (first_tx n txs).
Qed.

Lemma posted_Permutation n t txs txs' :
  txs ≡ₚ txs' → posted n t txs = posted n t txs'.
Proof.
  intros Hp. unfold posted. apply Zsum_Permutation.
  apply Permutation_map. by rewrite Hp.
Qed.

Lemma elem_of_to_trialBalance item m :
  item ∈ to_trialBalance m ↔
  ∃ d, (tb_accountName item, d) ∈ m ∧ tb_category item = ad_category d
       ∧ tb_debit item = ad_debit d ∧ tb_credit item = ad_credit d.
Proof.
  unfold to_trialBalance. rewrite list_elem_of_In, in_map_iff. split.
  - intros [[k d] [<- Hin]]. exists d. simpl.
    by rewrite list_elem_of_In.
  - intros (d & Hin & Hc & Hd & Hk). exists (tb_accountName item, d).
    rewrite <- list_elem_of_In. split; [|done].
    destruct item; simpl in *; by subst.
Qed.

Lemma names_to_trialBalance m :
  map tb_accountName (to_trialBalance m) = map fst m.
Proof.
  unfold to_trialBalance. rewrite map_map. apply map_ext. by intros [k d].
Qed.

Lemma first_tx_is_Some n txs :
  is_Some (first_tx n txs) ↔ n ∈ map tx_accountName txs.
Proof.
  unfold first_tx. induction txs as [|tx txs IH]; simpl.
  - split; [by intros [? ?] | intros H; by apply elem_of_nil in H].
  - rewrite elem_of_cons. case_bool_decide as Hn.
    + split; [by left | by eexists].
    + rewrite IH. naive_solver.
Qed.

Lemma first_tx_name n txs tx0 :
  first_tx n txs = Some tx0 → tx0 ∈ txs ∧ tx_accountName tx0 = n.
Proof.
  unfold first_tx. intros H. apply find_some in H as [Hin Hn].
  apply bool_decide_eq_true_1 in Hn. by rewrite list_elem_of_In.
Qed.

(** Rows of the trial balance, characterised from the transactions. *)
Lemma trialBalance_row item txs :
  item ∈ to_trialBalance (build_accountMap txs) ↔
  ∃ tx0, first_tx (tb_accountName item) txs = Some tx0
         ∧ tb_category item = tx_category tx0
         ∧ tb_debit item = posted (tb_accountName item) DEBIT txs
         ∧ tb_credit item = posted (tb_accountName item) CREDIT txs.
Proof.
  rewrite elem_of_to_trialBalance. split.
  - intros (d & Hin & Hc & Hd & Hk).
    apply in_map_get in Hin;
      [| rewrite keys_build_accountMap; apply NoDup_first_seen].
    rewrite map_get_build_accountMap in Hin.
    destruct (first_tx _ txs) as [tx0|]; [|done].
    simpl in Hin. simplify_eq. by exists tx0.
  - intros (tx0 & Hf & Hc & Hd & Hk).
    eexists. split.
    + apply map_get_Some_in. rewrite map_get_build_accountMap, Hf. done.
    + done.
Qed.

(** ** The accounting identity *)

Lemma net_map_set k v m :
  Zsum (map net_data (map_set k v m)) =
  Zsum (map net_data m) + net_data (k, v)
  - match map_get k m with Some o => net_data (k, o) | None => 0 end.
Proof.
  induction m as [|[k' v'] m IH]; simpl.
  - lia.
  - case_decide; simpl; [unfold net_data; simpl; lia |].
    rewrite IH. lia.
Qed.

Lemma net_accumulate m tx :
  Zsum (map net_data (accumulate m tx)) =
  Zsum (map net_data m) + signed_amount tx.
Proof.
  unfold accumulate. rewrite net_map_set. unfold net_data, signed_amount, post.
  destruct (map_get (tx_accountName tx) m) as [[c d k]|];
    destruct (tx_type tx); simpl; lia.
Qed.

Lemma net_fold_accumulate txs m :
  Zsum (map net_data (fold_left accumulate txs m)) =
  Zsum (map net_data m) + Zsum (map signed_amount txs).
Proof.
  revert m. induction txs as [|tx txs IH]; intros m; simpl.
  - lia.
  - rewrite IH, net_accumulate. lia.
Qed.

Lemma signed_amount_total txs :
  Zsum (map signed_amount txs) =
  total_of_type DEBIT txs - total_of_type CREDIT txs.
Proof.
  unfold total_of_type. induction txs as [|tx txs IH]; simpl; [done |].
  rewrite !filter_cons, IH. unfold signed_amount.
  destruct (tx_type tx); repeat case_decide; simplify_eq; simpl; lia.
Qed.

Lemma net_trialBalance txs :
  Zsum (map net (to_trialBalance (build_accountMap txs))) =
  total_of_type DEBIT txs - total_of_type CREDIT txs.
Proof.
  rewrite <- signed_amount_total. unfold to_trialBalance, build_accountMap.
  rewrite map_map.
  rewrite (map_ext _ net_data) by (by intros [k d]).
  rewrite net_fold_accumulate. simpl. lia.
Qed.

Lemma filter_has_category_cons c i l :
  List.filter (has_category c) (i :: l) =
  if decide (tb_category i = c) then i :: List.filter (has_category c) l
  else List.filter (has_category c) l.
Proof.
  cbn [List.filter]. unfold has_category at 1.
  case_bool_decide; case_decide; done.
Qed.

Lemma net_by_category (l : list TrialBalanceItem) :
  Zsum (map net l) =
  Zsum (map net (List.filter (has_category ASSET) l))
  + Zsum (map net (List.filter (has_category LIABILITY) l))
  + Zsum (map net (List.filter (has_category EQUITY) l))
  + Zsum (map net (List.filter (has_category REVENUE) l))
  + Zsum (map net (List.filter (has_category EXPENSE) l)).
Proof.
  induction l as [|i l IH]; [done |].
  rewrite !filter_has_category_cons. cbn [map Zsum]. rewrite IH.
  destruct (tb_category i); repeat (case_decide; [done || idtac | done || idtac]);
    cbn [map Zsum]; lia.
Qed.

Lemma amount_debit_normal l :
  Zsum (map amount (map debit_normal l)) = Zsum (map net l).
Proof. induction l as [|i l IH]; simpl; [done |]. unfold net at 1. lia. Qed.

Lemma amount_credit_normal l :
  Zsum (map amount (map credit_normal l)) = - Zsum (map net l).
Proof. induction l as [|i l IH]; simpl; [done |]. unfold net at 1. lia. Qed.

(** Assets less liabilities less equity is the excess of debits over
    credits in the ledger, whatever the ledger. *)
Lemma balance_identity txs :
  let bs := balanceSheet (calculateStatements txs) in
  totalAssets bs - totalLiabilities bs - totalEquity bs =
  total_of_type DEBIT txs - total_of_type CREDIT txs.
Proof.
  cbn -[to_trialBalance build_accountMap].
  rewrite <- net_trialBalance.
  rewrite (net_by_category (to_trialBalance _)).
  rewrite !reduce_amount_Zsum, map_app, Zsum_app.
  rewrite !amount_debit_normal, !amount_credit_normal. simpl. lia.
Qed.

(** ** Statements: the claims *)

(** C1. For a ledger whose Debit amounts and Credit amounts have the same
    sum, the balance sheet returned by [calculateStatements] has total
    assets equal to total liabilities plus total equity, the total equity
    being the one that counts the Current Period Earnings row. *)
Theorem balanced_ledger_balances (txs : list Transaction) :
  total_of_type DEBIT txs = total_of_type CREDIT txs →
  let bs := balanceSheet (calculateStatements txs) in
  totalAssets bs = totalLiabilities bs + totalEquity bs.
Proof.
  intros Hbal bs. pose proof (balance_identity txs) as H.
  cbv zeta in H. fold bs in H. lia.
Qed.

Lemma balanced_ledger_balances_witness :
  total_of_type DEBIT pairedLedger = total_of_type CREDIT pairedLedger
  ∧ totalAssets (balanceSheet (calculateStatements pairedLedger)) = 60000
  ∧ totalAssets (balanceSheet (calculateStatements pairedLedger)) =
    totalLiabilities (balanceSheet (calculateStatements pairedLedger))
    + totalEquity (balanceSheet (calculateStatements pairedLedger)).
Proof.
  split; [reflexivity |]. split; [reflexivity |].
  apply (balanced_ledger_balances pairedLedger). reflexivity.
Defined.

(** C4. The trial balance has one row per distinct account name, in the
    order in which the names first occur; a row carries the sum of the
    Debit amounts and the sum of the Credit amounts posted to its account
    and the category of the first transaction naming the account; and, in
    exact arithmetic, a permutation of the transactions leaves each
    account's two totals as they were. *)
Theorem trial_balance_per_account (txs : list Transaction) :
  let tb := trialBalance (calculateStatements txs) in
  map tb_accountName tb = first_seen (map tx_accountName txs)
  ∧ NoDup (map tb_accountName tb)
  ∧ (∀ name, name ∈ map tb_accountName tb ↔ name ∈ map tx_accountName txs)
  ∧ (∀ item, item ∈ tb →
       tb_debit item = posted (tb_accountName item) DEBIT txs
       ∧ tb_credit item = posted (tb_accountName item) CREDIT txs
       ∧ ∃ tx0, first_tx (tb_accountName item) txs = Some tx0
                ∧ tb_category item = tx_category tx0)
  ∧ (∀ txs', txs ≡ₚ txs' → ∀ item, item ∈ tb →
       ∃ item', item' ∈ trialBalance (calculateStatements txs')
                ∧ tb_accountName item' = tb_accountName item
                ∧ tb_debit item' = tb_debit item
                ∧ tb_credit item' = tb_credit item).
Proof.
  cbn -[to_trialBalance build_accountMap].
  assert (Hnames : map tb_accountName (to_trialBalance (build_accountMap txs))
                   = first_seen (map tx_accountName txs))
    by (by rewrite names_to_trialBalance, keys_build_accountMap).
  split; [done |]. rewrite Hnames.
  split; [apply NoDup_first_seen |].
  split; [intros name; apply elem_of_first_seen |].
  split.
  - intros item (tx0 & Hf & Hc & Hd & Hk)%trialBalance_row. eauto.
  - intros txs' Hp item (tx0 & Hf & Hc & Hd & Hk)%trialBalance_row.
    destruct (proj2 (first_tx_is_Some (tb_accountName item) txs')) as [tx0' Hf'].
    { rewrite <- Hp. apply first_tx_is_Some. by eexists. }
    exists (mkTrialBalanceItem (tb_accountName item) (tx_category tx0')
              (tb_debit item) (tb_credit item)).
    split; [|done]. apply trialBalance_row. exists tx0'. simpl.
    rewrite Hd, Hk. split; [done |]. split; [done |].
    split; by apply posted_Permutation.
Qed.

Lemma trial_balance_per_account_witness :
  ∃ item', item' ∈ trialBalance (calculateStatements (rev sampleTransactions))
           ∧ tb_accountName item' = "Cash"
           ∧ tb_debit item' = 62000
           ∧ tb_credit item' = 11500.
Proof.
  destruct (trial_balance_per_account sampleTransactions)
    as (_ & _ & _ & _ & Hperm).
  apply (Hperm (rev sampleTransactions) (Permutation_rev _)
           (mkTrialBalanceItem "Cash" ASSET 62000 11500)).
  vm_compute. left.
Defined.

Lemma fold_left_add l a : fold_left Z.add l a = a + Zsum l.
Proof.
  revert a. induction l as [|x l IH]; intros a; simpl; [lia |].
  rewrite IH. lia.
Qed.

Lemma sum_in_order_Zsum l : sum_in_order l = Zsum l.
Proof. unfold sum_in_order. rewrite fold_left_add. lia. Qed.

Lemma reduce_amount_in_order items :
  reduce_amount items = sum_in_order (map amount items).
Proof. by rewrite reduce_amount_Zsum, sum_in_order_Zsum. Qed.

Lemma filter_has_category_rows c l :
  List.filter (has_category c) l = rows_of_category c l.
Proof.
  unfold rows_of_category. induction l as [|i l IH]; [done |].
  rewrite filter_has_category_cons, filter_cons, IH. by case_decide.
Qed.

(** On binary64 numbers the totals of an account follow the order of its
    transactions: the debits 0.1, 0.2, 0.3 to the cash account total
    0.6000000000000001, and 0.6 in the reverse order. *)
Lemma trial_balance_totals_follow_order_binary64 :
  dimes ≡ₚ rev dimes
  ∧ Float64.trialBalance dimes =
    [Float64.mkTrialBalanceItem "Cash" ASSET 0.6000000000000001%float 0%float]
  ∧ Float64.trialBalance (rev dimes) =
    [Float64.mkTrialBalanceItem "Cash" ASSET 0.6%float 0%float]
  ∧ PrimFloat.eqb 0.6000000000000001%float 0.6%float = false
  ∧ ¬ (∀ txs txs' : list Float64.Transaction,
         txs ≡ₚ txs' →
         map Float64.tb_debit (Float64.trialBalance txs) =
         map Float64.tb_debit (Float64.trialBalance txs')).
Proof.
  assert (Hp : dimes ≡ₚ rev dimes) by apply Permutation_rev.
  split; [exact Hp |]. split; [reflexivity |]. split; [reflexivity |].
  split; [reflexivity |].
  intros H. specialize (H dimes (rev dimes) Hp).
  apply (f_equal (fun l => match l with
                           | x :: _ => PrimFloat.eqb x 0.6%float
                           | [] => true
                           end)) in H.
  vm_compute in H. discriminate.
Qed.

(** C5. Net income is total revenue less total expenses, the two totals
    being the sums, in row order, of credit less debit over the rows of
    category Revenue and of debit less credit over the rows of category
    Expense of the trial balance; the equity rows of the balance sheet are
    the rows of category Equity (label, credit less debit) followed by one
    Current Period Earnings row carrying net income; total equity is the
    sum over all of them, that row included;
    and every row of the trial balance is the row of an account named by
    an input transaction, holding the amounts posted to it and nothing
    else. *)
Theorem net_income_closing_row (txs : list Transaction) :
  let fs := calculateStatements txs in
  let tb := trialBalance fs in
  let raw := map (fun i => mkStatementItem (tb_accountName i)
                             (tb_credit i - tb_debit i))
                 (rows_of_category EQUITY tb) in
  totalRevenue (incomeStatement fs) =
    sum_in_order (map (fun i => tb_credit i - tb_debit i)
                      (rows_of_category REVENUE tb))
  ∧ totalExpenses (incomeStatement fs) =
    sum_in_order (map (fun i => tb_debit i - tb_credit i)
                      (rows_of_category EXPENSE tb))
  ∧ netIncome (incomeStatement fs) =
    totalRevenue (incomeStatement fs) - totalExpenses (incomeStatement fs)
  ∧ equity (balanceSheet fs) =
    raw ++ [mkStatementItem "Current Period Earnings"
              (netIncome (incomeStatement fs))]
  ∧ length (equity (balanceSheet fs)) = S (length raw)
  ∧ totalEquity (balanceSheet fs) =
    sum_in_order (map amount (equity (balanceSheet fs)))
  ∧ totalEquity (balanceSheet fs) =
    sum_in_order (map amount raw) + netIncome (incomeStatement fs)
  ∧ length tb = length (first_seen (map tx_accountName txs))
  ∧ (∀ item, item ∈ tb →
       tb_accountName item ∈ map tx_accountName txs
       ∧ tb_debit item = posted (tb_accountName item) DEBIT txs
       ∧ tb_credit item = posted (tb_accountName item) CREDIT txs).
Proof.
  cbn -[to_trialBalance build_accountMap].
  rewrite !reduce_amount_in_order, !filter_has_category_rows.
  rewrite (map_map credit_normal amount), (map_map debit_normal amount).
  split; [done |]. split; [done |]. split; [done |]. split; [done |].
  split; [rewrite length_app, !length_map; cbn [length]; by rewrite Nat.add_1_r |].
  split; [done |].
  split.
  { unfold sum_in_order at 1. rewrite map_app, fold_left_app.
    cbn [map fold_left amount]. reflexivity. }
  split.
  - rewrite <- keys_build_accountMap, <- names_to_trialBalance.
    by rewrite length_map.
  - intros item (tx0 & Hf & Hc & Hd & Hk)%trialBalance_row.
    split; [|done]. apply first_tx_is_Some. by eexists.
Qed.

Lemma net_income_closing_row_witness :
  netIncome (incomeStatement (calculateStatements sampleTransactions)) = 43500
  ∧ equity (balanceSheet (calculateStatements sampleTransactions)) =
    [ mkStatementItem "Common Stock" 50000;
      mkStatementItem "Current Period Earnings" 43500 ]
  ∧ totalEquity (balanceSheet (calculateStatements sampleTransactions)) = 93500.
Proof.
  pose proof (net_income_closing_row sampleTransactions) as H.
  cbv zeta in H. destruct H as (Hr & He & Hn & Heq & _ & Ht & _).
  split; [rewrite Hn, Hr, He; reflexivity |].
  split; [rewrite Heq, Hn, Hr, He; reflexivity |].
  rewrite Ht, Heq, Hn, Hr, He. reflexivity.
Defined.

(** C6. The reported net cash flow is total assets less total liabilities
    less total equity plus net income, for every ledger; it is a figure of
    its own and not the sum of the three buckets: on the sample ledger it is
    5500 while the buckets sum to 0. *)
Theorem net_cash_flow_identity_figure :
  (∀ txs : list Transaction,
     let fs := calculateStatements txs in
     netCashFlow (cashFlow fs) =
       totalAssets (balanceSheet fs) - totalLiabilities (balanceSheet fs)
       - totalEquity (balanceSheet fs) + netIncome (incomeStatement fs))
  ∧ (∃ txs : list Transaction,
       let cf := cashFlow (calculateStatements txs) in
       netCashFlow cf ≠
         reduce_amount (operating cf) + reduce_amount (investing cf)
         + reduce_amount (financing cf)).
Proof.
  split; [done |]. exists sampleTransactions. vm_compute. discriminate.
Qed.

(** ** Equity roll-forward *)

Lemma equity_change_rolls_forward raw : rolls_forward raw (equity_change raw).
Proof.
  unfold rolls_forward, equity_change. simpl.
  case_bool_decide; repeat split; intros; lia || done.
Qed.

(** C8. The equity changes are one row per raw equity row, in order, with
    opening balance 50000 and additions A - 50000 when the row's amount A
    exceeds 50000, opening balance 0 and additions A otherwise, net income
    and withdrawals 0 and closing balance A; followed by exactly one
    Retained Earnings row with opening balance 0, additions 0, the period's
    net income, withdrawals 0 and closing balance equal to net income. *)
Theorem equity_changes_rows (txs : list Transaction) :
  let fs := calculateStatements txs in
  let raw := map credit_normal
               (List.filter (has_category EQUITY) (trialBalance fs)) in
  let ni := netIncome (incomeStatement fs) in
  ∃ rows,
    equityChanges fs = rows ++ [mkEquityChangeItem "Retained Earnings" 0 0 ni 0 ni]
    ∧ Forall2 rolls_forward raw rows.
Proof.
  cbn -[to_trialBalance build_accountMap].
  eexists. split; [reflexivity |].
  induction (map credit_normal _) as [|r l IH]; simpl; constructor.
  - apply equity_change_rolls_forward.
  - apply IH.
Qed.

(** ** Cash-flow buckets *)

Lemma classify_cash_inv b tx :
  is_cash_account (tx_accountName tx) = true → inv (classify b tx) = inv b.
Proof.
  intros Hc. unfold classify. rewrite Hc. simpl.
  rewrite andb_false_r.
  repeat match goal with |- context [if ?c then _ else _] => destruct c end;
    done.
Qed.

Lemma fold_classify_inv l b :
  Forall (fun tx => is_cash_account (tx_accountName tx) = true) l →
  inv (fold_left classify l b) = inv b.
Proof.
  intros Hl. revert b. induction Hl as [|tx l Htx _ IH]; intros b; simpl.
  - done.
  - by rewrite IH, classify_cash_inv.
Qed.

(** C10. The investing list of the cash flow is empty for every ledger: the
    loop runs over the transactions whose account name contains a
    cash-account substring, and the Investing branch asks that it contain
    none. *)
Theorem investing_is_empty (txs : list Transaction) :
  investing (cashFlow (calculateStatements txs)) = [].
Proof.
  cbn -[cash_buckets]. unfold cash_buckets.
  rewrite fold_classify_inv; [done |].
  apply Forall_forall. intros tx Hin.
  apply list_elem_of_In, filter_In in Hin. apply Hin.
Qed.

(** ** Reconciliation: statuses *)

Lemma recon_book_statuses sts s book :
  Forall produced_status s.1 → Forall produced_status (recon_book sts s book).1.
Proof.
  destruct s as [ms ids]. unfold recon_book. simpl. intros H.
  destruct (List.find _ sts); simpl; apply Forall_app; split; try done;
    (constructor; [split; [done | simpl; auto] | constructor]).
Qed.

Lemma fold_recon_book_statuses sts books s :
  Forall produced_status s.1 →
  Forall produced_status (fold_left (recon_book sts) books s).1.
Proof.
  revert s. induction books as [|b books IH]; intros s H; simpl; [done |].
  apply IH. by apply recon_book_statuses.
Qed.

Lemma fold_recon_statement_statuses ids sts ms :
  Forall produced_status ms →
  Forall produced_status (fold_left (recon_statement ids) sts ms).
Proof.
  revert ms. induction sts as [|st sts IH]; intros ms H; simpl; [done |].
  apply IH. unfold recon_statement. case_bool_decide; [done |].
  apply Forall_app; split; [done |].
  constructor; [split; [done | simpl; auto] | constructor].
Qed.

(** C9. No record returned by [performBankReconciliation] has status
    amount_mismatch: every status is matched, missing_in_statement or
    missing_in_book. *)
Theorem no_amount_mismatch (bookEntries : list Transaction)
    (statementEntries : list BankStatementItem) :
  Forall (fun r => status r ≠ amount_mismatch
                   ∧ (status r = matched ∨ status r = missing_in_statement
                      ∨ status r = missing_in_book))
         (performBankReconciliation bookEntries statementEntries).
Proof.
  unfold performBankReconciliation.
  pose proof (fold_recon_book_statuses statementEntries bookEntries ([], ∅)) as H.
  destruct (fold_left _ bookEntries _) as [ms ids]. simpl in H.
  apply (fold_recon_statement_statuses ids statementEntries ms).
  apply H. constructor.
Qed.

(** ** Reconciliation: the matching contract *)

Lemma find_filter {A} (p q : A → bool) l :
  List.find (fun x => p x && q x) l = List.find p (List.filter q l).
Proof.
  induction l as [|x l IH]; simpl; [done |].
  destruct (q x); simpl.
  - rewrite andb_true_r. by destruct (p x).
  - by rewrite andb_false_r.
Qed.

Lemma take_first_find {A} (p : A → bool) l :
  List.find p l = fst <$> take_first p l.
Proof.
  induction l as [|x l IH]; simpl; [done |].
  destruct (p x); [done |]. rewrite IH.
  by destruct (take_first p l) as [[y r]|].
Qed.

Lemma take_first_rest (p : BankStatementItem → bool) l x r :
  NoDup (map st_id l) → take_first p l = Some (x, r) →
  r = List.filter (fun y => negb (bool_decide (st_id y = st_id x))) l.
Proof.
  revert r. induction l as [|y l IH]; intros r Hnd Hf; simpl in *; [done |].
  apply NoDup_cons in Hnd as [Hy Hnd].
  destruct (p y).
  - simplify_eq. rewrite bool_decide_eq_true_2 by done. simpl.
    symmetry. apply forallb_filter_id, forallb_forall. intros z Hz.
    apply negb_true_iff, bool_decide_eq_false_2. intros Heq.
    apply Hy. rewrite <- Heq. apply list_elem_of_In, in_map, Hz.
  - destruct (take_first p l) as [[z r']|] eqn:Ht; [|done]. simplify_eq.
    assert (st_id y ≠ st_id x) as Hne.
    { intros Heq. apply Hy. rewrite Heq.
      pose proof (take_first_find p l) as Hfind. rewrite Ht in Hfind.
      apply find_some in Hfind as [Hin _].
      apply list_elem_of_In, in_map, Hin. }
    rewrite bool_decide_eq_false_2 by done. simpl. f_equal. by apply IH.
Qed.

Lemma not_consumed_empty sts : not_consumed ∅ sts = sts.
Proof.
  unfold not_consumed. apply forallb_filter_id, forallb_forall. intros st _.
  apply negb_true_iff, bool_decide_eq_false_2. set_solver.
Qed.

Lemma not_consumed_union ids x sts :
  not_consumed (ids ∪ {[ x ]}) sts =
  List.filter (fun y => negb (bool_decide (st_id y = x))) (not_consumed ids sts).
Proof.
  unfold not_consumed. induction sts as [|st sts IH]; simpl; [done |].
  rewrite IH.
  destruct (decide (st_id st ∈ ids)) as [Hin|Hnin].
  - rewrite (bool_decide_eq_true_2 (st_id st ∈ ids ∪ {[x]})) by set_solver.
    by rewrite (bool_decide_eq_true_2 _ Hin).
  - rewrite (bool_decide_eq_false_2 _ Hnin). simpl.
    destruct (decide (st_id st = x)) as [Heq|Hne].
    + rewrite (bool_decide_eq_true_2 (st_id st ∈ ids ∪ {[x]})) by set_solver.
      by rewrite (bool_decide_eq_true_2 _ Heq).
    + rewrite (bool_decide_eq_false_2 (st_id st ∈ ids ∪ {[x]})) by set_solver.
      by rewrite (bool_decide_eq_false_2 _ Hne).
Qed.

Lemma NoDup_ids_not_consumed ids sts :
  NoDup (map st_id sts) → NoDup (map st_id (not_consumed ids sts)).
Proof.
  unfold not_consumed. induction sts as [|st sts IH]; simpl; [done |].
  rewrite NoDup_cons. intros [Hst Hnd].
  destruct (negb _); simpl; [|auto].
  apply NoDup_cons. split; [|auto].
  intros Hin. apply Hst.
  apply list_elem_of_In, in_map_iff in Hin as (y & Hy & Hin).
  apply filter_In in Hin as [Hin _].
  rewrite <- Hy. apply list_elem_of_In, in_map, Hin.
Qed.

(** The first loop, against the contract. *)
Lemma fold_recon_book_contract sts books acc ids :
  NoDup (map st_id sts) →
  ∃ ids',
    fold_left (recon_book sts) books (acc, ids) =
      (acc ++ (match_books books (not_consumed ids sts)).1, ids')
    ∧ not_consumed ids' sts = (match_books books (not_consumed ids sts)).2.
Proof.
  intros Hnd. revert acc ids.
  induction books as [|book books IH]; intros acc ids.
  - exists ids. simpl. by rewrite app_nil_r.
  - cbn [fold_left match_books]. unfold recon_book at 2.
    rewrite (find_filter (agrees book)
               (fun st => negb (bool_decide (st_id st ∈ ids)))).
    fold (not_consumed ids sts). rewrite take_first_find.
    destruct (take_first (agrees book) (not_consumed ids sts))
      as [[m r]|] eqn:Ht; simpl.
    + apply take_first_rest in Ht; [|by apply NoDup_ids_not_consumed].
      destruct (IH (acc ++ [mkReconMatch (Some book) (Some m) matched])
                   (ids ∪ {[st_id m]})) as (ids' & Hfold & Hrest).
      rewrite not_consumed_union, <- Ht in Hfold, Hrest.
      exists ids'. rewrite Hfold, Hrest.
      destruct (match_books books r) as [ms u]. simpl.
      by rewrite <- app_assoc.
    + destruct (IH (acc ++ [mkReconMatch (Some book) None missing_in_statement])
                   ids) as (ids' & Hfold & Hrest).
      exists ids'. rewrite Hfold, Hrest.
      destruct (match_books books (not_consumed ids sts)) as [ms u]. simpl.
      by rewrite <- app_assoc.
Qed.

(** The second loop. *)
Lemma fold_recon_statement_contract ids sts ms :
  fold_left (recon_statement ids) sts ms =
  ms ++ map (fun st => mkReconMatch None (Some st) missing_in_book)
            (not_consumed ids sts).
Proof.
  unfold not_consumed. revert ms.
  induction sts as [|st sts IH]; intros ms; simpl.
  - by rewrite app_nil_r.
  - rewrite IH. unfold recon_statement.
    case_bool_decide; simpl; [done |]. by rewrite <- app_assoc.
Qed.

Lemma performBankReconciliation_contract books sts :
  NoDup (map st_id sts) →
  performBankReconciliation books sts = reconciliation_contract books sts.
Proof.
  intros Hnd. unfold performBankReconciliation, reconciliation_contract.
  destruct (fold_recon_book_contract sts books [] ∅ Hnd)
    as (ids' & Hfold & Hrest).
  rewrite Hfold, fold_recon_statement_contract, Hrest.
  rewrite not_consumed_empty. by destruct (match_books books sts).
Qed.

(** What [take_first] returns, said without recursion. *)
Lemma take_first_Some {A} (p : A → bool) l x r :
  take_first p l = Some (x, r) ↔
  ∃ l1 l2, l = l1 ++ x :: l2 ∧ r = l1 ++ l2
           ∧ p x = true ∧ Forall (fun y => p y = false) l1.
Proof.
  revert r. induction l as [|y l IH]; intros r; simpl.
  - split; [done |]. intros (l1 & l2 & Hl & _). by destruct l1.
  - destruct (p y) eqn:Hy.
    + split.
      * intros ?; simplify_eq. by eexists [], _.
      * intros (l1 & l2 & Hl & -> & Hx & Hl1).
        destruct l1 as [|z l1]; simpl in *; simplify_eq; [done |].
        apply Forall_cons in Hl1 as [Hz _]. congruence.
    + destruct (take_first p l) as [[z r']|]; split.
      * intros ?; simplify_eq.
        destruct (proj1 (IH r') eq_refl) as (l1 & l2 & -> & -> & Hx & Hl1).
        exists (y :: l1), l2. repeat split; try done. by constructor.
      * intros (l1 & l2 & Hl & -> & Hx & Hl1).
        destruct l1 as [|w l1]; simpl in *; simplify_eq; [congruence |].
        apply Forall_cons in Hl1 as [_ Hl1].
        assert (Some (z, r') = Some (x, l1 ++ l2)) as Heq
          by (apply IH; by exists l1, l2).
        by simplify_eq.
      * done.
      * intros (l1 & l2 & Hl & -> & Hx & Hl1).
        destruct l1 as [|w l1]; simpl in *; simplify_eq; [congruence |].
        apply Forall_cons in Hl1 as [_ Hl1].
        assert (None = Some (x, l1 ++ l2)) as Heq
          by (apply IH; by exists l1, l2).
        done.
Qed.

Lemma take_first_None {A} (p : A → bool) l :
  take_first p l = None ↔ Forall (fun y => p y = false) l.
Proof.
  induction l as [|y l IH]; simpl; [done |].
  rewrite Forall_cons. destruct (p y).
  - split; [done | by intros [? _]].
  - destruct (take_first p l) as [[z r]|].
    + split; [done |]. intros [_ H]. by apply IH in H.
    + split; [|done]. intros _. split; [done |]. by apply IH.
Qed.

(** ** Reconciliation: counts *)

Lemma agrees_same_value book a b :
  same_value a b → agrees book a = agrees book b.
Proof. intros [Hd Ha]. unfold agrees. by rewrite Hd, Ha. Qed.

Lemma take_first_same_value book u u' :
  Forall2 same_value u u' →
  match take_first (agrees book) u, take_first (agrees book) u' with
  | Some (_, r), Some (_, r') => Forall2 same_value r r'
  | None, None => True
  | _, _ => False
  end.
Proof.
  induction 1 as [|a b u u' Hab Hu IH]; simpl; [done |].
  rewrite (agrees_same_value book a b Hab).
  destruct (agrees book b); [done |].
  destruct (take_first _ u) as [[x r]|], (take_first _ u') as [[x' r']|];
    try done.
  by constructor.
Qed.

Lemma match_books_same_value books u u' :
  Forall2 same_value u u' →
  map status (match_books books u).1 = map status (match_books books u').1
  ∧ Forall2 same_value (match_books books u).2 (match_books books u').2.
Proof.
  revert u u'. induction books as [|book books IH]; intros u u' Hu; simpl.
  - done.
  - pose proof (take_first_same_value book u u' Hu) as Ht.
    destruct (take_first _ u) as [[x r]|], (take_first _ u') as [[x' r']|];
      try done.
    + destruct (IH r r' Ht) as [Hs Hr].
      destruct (match_books books r), (match_books books r'); simpl in *.
      split; [by f_equal | done].
    + destruct (IH u u' Hu) as [Hs Hr].
      destruct (match_books books u), (match_books books u'); simpl in *.
      split; [by f_equal | done].
Qed.

Lemma contract_statuses_same_value books sts sts' :
  Forall2 same_value sts sts' →
  map status (reconciliation_contract books sts) =
  map status (reconciliation_contract books sts').
Proof.
  intros H. destruct (match_books_same_value books sts sts' H) as [Hs Hr].
  unfold reconciliation_contract.
  destruct (match_books books sts) as [ms u],
           (match_books books sts') as [ms' u']; simpl in *.
  rewrite !map_app, !map_map, Hs. f_equal. simpl.
  clear -Hr. induction Hr; simpl; by f_equal.
Qed.

Lemma count_status_statuses s out out' :
  map status out = map status out' → count_status s out = count_status s out'.
Proof.
  unfold count_status. revert out'.
  induction out as [|r out IH]; intros [|r' out'] H; simpl in *; try done.
  injection H as Hr H. rewrite Hr.
  destruct (bool_decide _); simpl; by rewrite (IH out').
Qed.

(** ** Trend series *)

Section TrendProps.
Variable getMonth : string → option nat.

Lemma trend_step_revenue (m : gmap (option string) TrendData) tx k :
  tr_revenue (bucket (trend_step getMonth m tx) k) =
  tr_revenue (bucket m k)
  + (if decide (in_month getMonth k REVENUE tx) then tx_amount tx else 0).
Proof.
  unfold trend_step. fold zeroTrend.
  destruct (decide (monthLabel_of getMonth tx = k)) as [<-|Hk].
  - rewrite lookup_insert_eq. simpl.
    destruct (decide (in_month getMonth (monthLabel_of getMonth tx) REVENUE tx))
      as [[_ Hc]|Hn].
    + rewrite (bool_decide_eq_true_2 _ Hc). done.
    + rewrite bool_decide_eq_false_2 by (intros Hc; by apply Hn).
      case_bool_decide; simpl; lia.
  - rewrite lookup_insert_ne by done.
    rewrite decide_False by (by intros [? _]). lia.
Qed.

Lemma trend_step_expense (m : gmap (option string) TrendData) tx k :
  tr_expense (bucket (trend_step getMonth m tx) k) =
  tr_expense (bucket m k)
  + (if decide (in_month getMonth k EXPENSE tx) then tx_amount tx else 0).
Proof.
  unfold trend_step. fold zeroTrend.
  destruct (decide (monthLabel_of getMonth tx = k)) as [<-|Hk].
  - rewrite lookup_insert_eq. simpl.
    destruct (decide (in_month getMonth (monthLabel_of getMonth tx) EXPENSE tx))
      as [[_ Hc]|Hn].
    + rewrite (bool_decide_eq_false_2 (tx_category tx = REVENUE))
        by (by rewrite Hc).
      rewrite (bool_decide_eq_true_2 _ Hc). done.
    + case_bool_decide; simpl; [lia |].
      rewrite bool_decide_eq_false_2 by (intros Hc; by apply Hn). simpl. lia.
  - rewrite lookup_insert_ne by done.
    rewrite decide_False by (by intros [? _]). lia.
Qed.

Lemma trend_step_profit_ok m tx :
  profit_ok m → profit_ok (trend_step getMonth m tx).
Proof.
  intros Hm k. unfold trend_step. fold zeroTrend.
  destruct (decide (monthLabel_of getMonth tx = k)) as [<-|Hk].
  - rewrite lookup_insert_eq. simpl. lia.
  - rewrite lookup_insert_ne by done. apply Hm.
Qed.

Lemma month_total_cons k c tx txs :
  month_total getMonth k c (tx :: txs) =
  (if decide (in_month getMonth k c tx) then tx_amount tx else 0)
  + month_total getMonth k c txs.
Proof. unfold month_total. rewrite filter_cons. by case_decide. Qed.

Lemma trend_fold txs m k :
  tr_revenue (bucket (fold_left (trend_step getMonth) txs m) k) =
    tr_revenue (bucket m k) + month_total getMonth k REVENUE txs
  ∧ tr_expense (bucket (fold_left (trend_step getMonth) txs m) k) =
    tr_expense (bucket m k) + month_total getMonth k EXPENSE txs
  ∧ (profit_ok m → profit_ok (fold_left (trend_step getMonth) txs m)).
Proof.
  revert m. induction txs as [|tx txs IH]; intros m.
  - unfold month_total. simpl. repeat split; [lia | lia | done].
  - cbn [fold_left]. destruct (IH (trend_step getMonth m tx)) as (Hr & He & Hp).
    rewrite Hr, He, trend_step_revenue, trend_step_expense, !month_total_cons.
    repeat split; [lia | lia |].
    intros Hm. by apply Hp, trend_step_profit_ok.
Qed.

Lemma trend_map_bucket txs k :
  bucket (trend_map getMonth txs) k =
  mkTrendData (month_total getMonth k REVENUE txs)
              (month_total getMonth k EXPENSE txs)
              (month_total getMonth k REVENUE txs
               - month_total getMonth k EXPENSE txs).
Proof.
  unfold trend_map.
  destruct (trend_fold txs ∅ k) as (Hr & He & Hp).
  pose proof (Hp (fun k' => eq_refl) k) as Hpk.
  rewrite lookup_empty in Hr, He. simpl in Hr, He.
  destruct (bucket (fold_left (trend_step getMonth) txs ∅) k) as [r e p].
  simpl in *. f_equal; lia.
Qed.

Lemma month_total_none k c txs :
  Forall (fun tx => monthLabel_of getMonth tx = k → tx_category tx ≠ c) txs →
  month_total getMonth k c txs = 0.
Proof.
  induction 1 as [|tx txs Htx _ IH]; [done |].
  rewrite month_total_cons, IH.
  rewrite decide_False; [done |]. intros [Hk Hc]. by apply Htx.
Qed.

Lemma Zsum_map_add {A} (f g : A → Z) l :
  Zsum (map (fun x => f x + g x) l) = Zsum (map f l) + Zsum (map g l).
Proof. induction l as [|x l IH]; simpl; lia. Qed.

Lemma month_indicator (i : nat) (a : Z) :
  (i < 12)%nat →
  Zsum (map (fun m => if decide (months !! i = Some m) then a else 0) months)
  = a.
Proof.
  intros Hi.
  do 12 (destruct i as [|i];
         [cbn; repeat (case_decide; try done); lia |]).
  lia.
Qed.

Lemma indicator_zero (P : string → Prop) `{!∀ m, Decision (P m)} (a : Z) l :
  (∀ m, ¬ P m) →
  Zsum (map (fun m => if decide (P m) then a else 0) l) = 0.
Proof.
  intros HP. induction l as [|m l IH]; cbn [map Zsum]; [done |].
  rewrite IH, decide_False; [done | apply HP].
Qed.

Lemma month_total_all txs :
  Forall (fun tx => ∃ i, getMonth (tx_date tx) = Some i ∧ (i < 12)%nat) txs →
  Zsum (map (fun m => month_total getMonth (Some m) REVENUE txs) months) =
  Zsum (map tx_amount (filter (λ tx, tx_category tx = REVENUE) txs)).
Proof.
  induction 1 as [|tx txs (i & Hi & Hlt) _ IH].
  - done.
  - assert (Hlabel : monthLabel_of getMonth tx = months !! i)
      by (unfold monthLabel_of; by rewrite Hi).
    rewrite (map_ext _ _ (fun m => month_total_cons (Some m) REVENUE tx txs)).
    rewrite Zsum_map_add, IH, filter_cons.
    destruct (decide (tx_category tx = REVENUE)) as [Hc|Hc]; cbn [map Zsum].
    + f_equal.
      etransitivity; [| exact (month_indicator i (tx_amount tx) Hlt)].
      f_equal. apply map_ext. intros m.
      destruct (decide (in_month getMonth (Some m) REVENUE tx)) as [[H1 _]|Hn],
               (decide (months !! i = Some m)) as [H3|H3]; try done.
      * congruence.
      * exfalso. apply Hn. split; congruence.
    + rewrite indicator_zero; [lia |]. by intros m [_ ?].
Qed.
End TrendProps.

(** ** Reconciliation: the claims *)

(** C2. When the statement entries have unique ids, the records returned by
    [performBankReconciliation] are those of the contract: for each book
    entry in input order, a matched record with the first statement entry,
    in statement order, of identical date and signed amount that is not yet
    consumed, which is thereby consumed, or a missing_in_statement record
    when there is none; then a missing_in_book record for every statement
    entry never consumed, in statement order. *)
Theorem reconciliation_first_match (bookEntries : list Transaction)
    (statementEntries : list BankStatementItem) :
  NoDup (map st_id statementEntries) →
  performBankReconciliation bookEntries statementEntries =
  reconciliation_contract bookEntries statementEntries.
Proof. apply performBankReconciliation_contract. Qed.

Lemma reconciliation_first_match_witness :
  NoDup (map st_id rentStatement)
  ∧ reconciliation_contract rentBooks rentStatement =
    [ mkReconMatch (nth_error rentBooks 0) (Some x1) matched;
      mkReconMatch (nth_error rentBooks 1) (Some x3) matched;
      mkReconMatch None (Some x2) missing_in_book ]
  ∧ performBankReconciliation rentBooks rentStatement =
    reconciliation_contract rentBooks rentStatement.
Proof.
  assert (Hnd : NoDup (map st_id rentStatement)).
  { apply (bool_decide_unpack (NoDup (map st_id rentStatement))).
    vm_compute. exact I. }
  split; [exact Hnd |]. split; [reflexivity |].
  apply (reconciliation_first_match rentBooks rentStatement Hnd).
Defined.

(** C3. For a statement list as the data model has it, with unique ids, a
    permutation of the list that leaves the date and the amount found at
    every position as they were (it only reorders value-identical entries)
    yields the same number of matched, of missing_in_statement and of
    missing_in_book records, although the statement entry paired in a
    matched record may differ. *)
Theorem reconciliation_counts_stable (bookEntries : list Transaction)
    (sts sts' : list BankStatementItem) :
  NoDup (map st_id sts) →
  sts ≡ₚ sts' →
  Forall2 same_value sts sts' →
  count_status matched (performBankReconciliation bookEntries sts') =
    count_status matched (performBankReconciliation bookEntries sts)
  ∧ count_status missing_in_statement (performBankReconciliation bookEntries sts') =
    count_status missing_in_statement (performBankReconciliation bookEntries sts)
  ∧ count_status missing_in_book (performBankReconciliation bookEntries sts') =
    count_status missing_in_book (performBankReconciliation bookEntries sts).
Proof.
  intros Hnd Hp Hv.
  assert (Hnd' : NoDup (map st_id sts')) by (by rewrite <- Hp).
  rewrite !performBankReconciliation_contract by done.
  pose proof (contract_statuses_same_value bookEntries sts sts' Hv) as Hs.
  repeat split; symmetry; by apply count_status_statuses.
Qed.

Lemma reconciliation_counts_stable_witness :
  (NoDup (map st_id rentStatement)
   ∧ rentStatement ≡ₚ rentStatement_reordered
   ∧ Forall2 same_value rentStatement rentStatement_reordered)
  ∧ (count_status matched
       (performBankReconciliation rentBooks rentStatement_reordered) =
     count_status matched (performBankReconciliation rentBooks rentStatement)
     ∧ count_status missing_in_statement
         (performBankReconciliation rentBooks rentStatement_reordered) =
       count_status missing_in_statement
         (performBankReconciliation rentBooks rentStatement)
     ∧ count_status missing_in_book
         (performBankReconciliation rentBooks rentStatement_reordered) =
       count_status missing_in_book
         (performBankReconciliation rentBooks rentStatement))
  ∧ performBankReconciliation rentBooks rentStatement_reordered ≠
    performBankReconciliation rentBooks rentStatement.
Proof.
  assert (Hnd : NoDup (map st_id rentStatement)).
  { apply (bool_decide_unpack (NoDup (map st_id rentStatement))).
    vm_compute. exact I. }
  assert (Hp : rentStatement ≡ₚ rentStatement_reordered).
  { apply (Permutation_rev rentStatement). }
  assert (Hv : Forall2 same_value rentStatement rentStatement_reordered).
  { repeat constructor. }
  split; [done |]. split.
  - apply (reconciliation_counts_stable rentBooks _ _ Hnd Hp Hv).
  - vm_compute. discriminate.
Defined.

(** Outside the data model, when two statement entries share an id, the
    counts do depend on the order: on [dupStatement] one book entry is
    matched, on its reordering both are. *)
Lemma reconciliation_counts_duplicate_ids :
  dupStatement ≡ₚ dupStatement_reordered
  ∧ Forall2 same_value dupStatement dupStatement_reordered
  ∧ count_status matched (performBankReconciliation dupBooks dupStatement) = 1%nat
  ∧ count_status matched
      (performBankReconciliation dupBooks dupStatement_reordered) = 2%nat
  ∧ ¬ (∀ (bookEntries : list Transaction) (sts sts' : list BankStatementItem),
         sts ≡ₚ sts' →
         Forall2 same_value sts sts' →
         count_status matched (performBankReconciliation bookEntries sts') =
           count_status matched (performBankReconciliation bookEntries sts)
         ∧ count_status missing_in_statement
             (performBankReconciliation bookEntries sts') =
           count_status missing_in_statement
             (performBankReconciliation bookEntries sts)
         ∧ count_status missing_in_book
             (performBankReconciliation bookEntries sts') =
           count_status missing_in_book
             (performBankReconciliation bookEntries sts)).
Proof.
  assert (Hp : dupStatement ≡ₚ dupStatement_reordered).
  { apply (Permutation_rev dupStatement). }
  assert (Hv : Forall2 same_value dupStatement dupStatement_reordered).
  { repeat constructor. }
  split; [done |]. split; [done |].
  split; [reflexivity |]. split; [reflexivity |].
  intros H. destruct (H dupBooks _ _ Hp Hv) as [Hm _].
  vm_compute in Hm. discriminate.
Qed.

(** ** Trend series: the claim *)

Lemma NoDup_months : NoDup months.
Proof. apply (bool_decide_unpack (NoDup months)). vm_compute. exact I. Qed.

Lemma lookup_map {A B} (f : A → B) (l : list A) (i : nat) :
  map f l !! i = f <$> (l !! i).
Proof.
  revert i. induction l as [|x l IH]; intros [|i]; simpl; done || apply IH.
Qed.

(** A transaction falls under the label of row [i] exactly when its date
    has month index [i]. *)
Lemma monthLabel_of_index getMonth tx (i : nat) m :
  months !! i = Some m →
  monthLabel_of getMonth tx = Some m ↔ getMonth (tx_date tx) = Some i.
Proof.
  intros Hi. unfold monthLabel_of.
  destruct (getMonth (tx_date tx)) as [j|]; simpl.
  - split.
    + intros Hj. f_equal. exact (NoDup_lookup months j i m NoDup_months Hj Hi).
    + intros [= ->]. exact Hi.
  - split; intros; discriminate.
Qed.

Lemma month_total_index getMonth (i : nat) m c txs :
  months !! i = Some m →
  month_total getMonth (Some m) c txs = month_sum getMonth i c txs.
Proof.
  intros Hi. unfold month_total, month_sum. rewrite sum_in_order_Zsum.
  do 2 f_equal. apply list_filter_iff. intros tx.
  unfold in_month, in_month_index.
  by rewrite (monthLabel_of_index getMonth tx i m Hi).
Qed.

(** The row found at position [i] of the series. *)
Lemma getTrendData_lookup getMonth txs (i : nat) row :
  getTrendData getMonth txs !! i = Some row →
  ∃ m, months !! i = Some m
       ∧ month row = m
       ∧ row_revenue row = month_sum getMonth i REVENUE txs
       ∧ row_expense row = month_sum getMonth i EXPENSE txs
       ∧ row_profit row =
         month_sum getMonth i REVENUE txs - month_sum getMonth i EXPENSE txs.
Proof.
  unfold getTrendData. rewrite lookup_map.
  destruct (months !! i) as [m|] eqn:Hi; [|done].
  intros [= <-]. exists m. cbn [month row_revenue row_expense row_profit].
  fold zeroTrend. rewrite trend_map_bucket.
  cbn [tr_revenue tr_expense tr_profit].
  by rewrite !(month_total_index getMonth i m _ txs Hi).
Qed.

Lemma month_sum_none getMonth (i : nat) c txs :
  Forall (fun tx => getMonth (tx_date tx) = Some i → tx_category tx ≠ c) txs →
  month_sum getMonth i c txs = 0.
Proof.
  intros H. unfold month_sum. rewrite sum_in_order_Zsum.
  induction H as [|tx txs Htx _ IH]; [done |].
  rewrite filter_cons, decide_False; [exact IH |].
  intros [Hi Hc]. by apply Htx.
Qed.

(** C7. In exact arithmetic: when every date has a month index below
    twelve, [getTrendData] returns twelve rows labelled Jan to Dec in
    calendar order, whatever the years; the row of a month in which no
    transaction is of category Revenue or Expense reports zero revenue,
    expense and profit; and the twelve revenues add up to the sum of the
    amounts of the Revenue transactions. *)
Theorem trend_twelve_months (getMonth : string → option nat)
    (txs : list Transaction) :
  Forall (fun tx => ∃ i, getMonth (tx_date tx) = Some i ∧ (i < 12)%nat) txs →
  let out := getTrendData getMonth txs in
  map month out =
    ["Jan"; "Feb"; "Mar"; "Apr"; "May"; "Jun";
     "Jul"; "Aug"; "Sep"; "Oct"; "Nov"; "Dec"]
  ∧ length out = 12%nat
  ∧ (∀ (i : nat) row, out !! i = Some row →
       Forall (fun tx => getMonth (tx_date tx) = Some i →
                         tx_category tx ≠ REVENUE ∧ tx_category tx ≠ EXPENSE)
              txs →
       row_revenue row = 0 ∧ row_expense row = 0 ∧ row_profit row = 0)
  ∧ sum_in_order (map row_revenue out) =
    sum_in_order
      (map tx_amount (filter (λ tx, tx_category tx = REVENUE) txs)).
Proof.
  intros Hvalid out. subst out.
  split; [unfold getTrendData; by rewrite map_map, map_id |].
  split; [unfold getTrendData; by rewrite length_map |].
  split.
  - intros i row Hrow Hnone.
    apply getTrendData_lookup in Hrow as (m & _ & _ & -> & -> & ->).
    rewrite !month_sum_none; [done | |].
    + eapply Forall_impl; [exact Hnone |]. naive_solver.
    + eapply Forall_impl; [exact Hnone |]. naive_solver.
  - rewrite !sum_in_order_Zsum. unfold getTrendData.
    rewrite map_map, <- (month_total_all getMonth txs Hvalid).
    f_equal. apply map_ext. intros m. simpl. fold zeroTrend.
    by rewrite trend_map_bucket.
Qed.

Lemma trend_twelve_months_witness :
  Forall (fun tx => ∃ i, iso_month (tx_date tx) = Some i ∧ (i < 12)%nat)
         sampleTransactions
  ∧ map month (getTrendData iso_month sampleTransactions) =
    ["Jan"; "Feb"; "Mar"; "Apr"; "May"; "Jun";
     "Jul"; "Aug"; "Sep"; "Oct"; "Nov"; "Dec"]
  ∧ map row_revenue (getTrendData iso_month sampleTransactions) =
    [0; 0; 0; 0; 0; 0; 0; 0; 40000; 12000; 0; 0]
  ∧ sum_in_order (map row_revenue (getTrendData iso_month sampleTransactions))
    = 52000.
Proof.
  assert (Hvalid : Forall (fun tx => ∃ i, iso_month (tx_date tx) = Some i
                                          ∧ (i < 12)%nat) sampleTransactions).
  { repeat (constructor; [eexists; split; [reflexivity | simpl; lia] |]).
    constructor. }
  split; [exact Hvalid |].
  destruct (trend_twelve_months iso_month sampleTransactions Hvalid)
    as (Hm & _ & _ & Hsum).
  split; [exact Hm |]. split; [reflexivity |]. rewrite Hsum. reflexivity.
Defined.

(** On binary64 numbers the twelve revenues need not add up to the sum of
    the Revenue amounts: sales of 0.3 in January, 0.2 in February and 0.1
    in January give the monthly revenues 0.4 and 0.2, which add up to
    0.6000000000000001, while the three amounts add up to 0.6. *)
Lemma trend_revenue_total_binary64 :
  Forall (fun tx => ∃ i, iso_month (Float64.tx_date tx) = Some i ∧ (i < 12)%nat)
         winterSales
  ∧ Forall (fun tx => Float64.tx_category tx = REVENUE) winterSales
  ∧ map Float64.row_revenue (Float64.getTrendData iso_month winterSales) =
    [0.4; 0.2; 0; 0; 0; 0; 0; 0; 0; 0; 0; 0]%float
  ∧ Float64.sum
      (map Float64.row_revenue (Float64.getTrendData iso_month winterSales)) =
    0.6000000000000001%float
  ∧ Float64.sum (map Float64.tx_amount winterSales) = 0.6%float
  ∧ PrimFloat.eqb
      (Float64.sum
         (map Float64.row_revenue (Float64.getTrendData iso_month winterSales)))
      (Float64.sum (map Float64.tx_amount winterSales)) = false.
Proof.
  split.
  { repeat (constructor; [eexists; split; [reflexivity | simpl; lia] |]).
    constructor. }
  split; [by repeat constructor |].
  repeat split; reflexivity.
Qed.

(** * Further properties of [calculateStatements] *)

(** ** Columns of the trial balance *)

Lemma column_map_set g k v m :
  column g (map_set k v m) =
  column g m + g v - match map_get k m with Some o => g o | None => 0 end.
Proof.
  unfold column. induction m as [|[k' v'] m IH]; simpl.
  - lia.
  - case_decide; simpl; [lia |]. rewrite IH. lia.
Qed.

Lemma debit_accumulate m tx :
  column ad_debit (accumulate m tx) =
  column ad_debit m + (if decide (tx_type tx = DEBIT) then tx_amount tx else 0).
Proof.
  unfold accumulate. rewrite column_map_set. unfold post.
  destruct (map_get (tx_accountName tx) m) as [[c d k]|];
    destruct (tx_type tx); simpl; lia.
Qed.

Lemma credit_accumulate m tx :
  column ad_credit (accumulate m tx) =
  column ad_credit m + (if decide (tx_type tx = CREDIT) then tx_amount tx else 0).
Proof.
  unfold accumulate. rewrite column_map_set. unfold post.
  destruct (map_get (tx_accountName tx) m) as [[c d k]|];
    destruct (tx_type tx); simpl; lia.
Qed.

Lemma total_of_type_cons t tx txs :
  total_of_type t (tx :: txs) =
  (if decide (tx_type tx = t) then tx_amount tx else 0) + total_of_type t txs.
Proof. unfold total_of_type. rewrite filter_cons. by case_decide. Qed.

Lemma columns_fold_accumulate txs m :
  column ad_debit (fold_left accumulate txs m) =
    column ad_debit m + total_of_type DEBIT txs
  ∧ column ad_credit (fold_left accumulate txs m) =
    column ad_credit m + total_of_type CREDIT txs.
Proof.
  revert m. induction txs as [|tx txs IH]; intros m.
  - unfold total_of_type. simpl. lia.
  - cbn [fold_left]. destruct (IH (accumulate m tx)) as [Hd Hc].
    rewrite Hd, Hc, debit_accumulate, credit_accumulate, !total_of_type_cons.
    lia.
Qed.

Lemma column_to_trialBalance (f : TrialBalanceItem → Z) (g : AccountData → Z) m :
  (∀ k d, f (mkTrialBalanceItem k (ad_category d) (ad_debit d) (ad_credit d))
          = g d) →
  Zsum (map f (to_trialBalance m)) = column g m.
Proof.
  intros Hfg. unfold to_trialBalance, column. rewrite map_map.
  f_equal. apply map_ext. intros [k d]. apply Hfg.
Qed.

(** X1. The debit column of the trial balance adds up to the Debit amounts
    of the ledger and the credit column to the Credit amounts, so the two
    columns agree exactly when the ledger is balanced. *)
Theorem trial_balance_columns (txs : list Transaction) :
  let tb := trialBalance (calculateStatements txs) in
  Zsum (map tb_debit tb) = total_of_type DEBIT txs
  ∧ Zsum (map tb_credit tb) = total_of_type CREDIT txs
  ∧ (Zsum (map tb_debit tb) = Zsum (map tb_credit tb)
     ↔ total_of_type DEBIT txs = total_of_type CREDIT txs).
Proof.
  cbn -[to_trialBalance build_accountMap].
  rewrite (column_to_trialBalance tb_debit ad_debit) by done.
  rewrite (column_to_trialBalance tb_credit ad_credit) by done.
  unfold build_accountMap.
  destruct (columns_fold_accumulate txs []) as [-> ->].
  unfold column. simpl. lia.
Qed.

(** X2. In exact arithmetic, the reported net cash flow is net income plus
    the excess of the Debit amounts over the Credit amounts of the ledger,
    whatever the accounts involved; for a balanced ledger it is net
    income. *)
Theorem net_cash_flow_is_imbalance_plus_income (txs : list Transaction) :
  let fs := calculateStatements txs in
  netCashFlow (cashFlow fs) =
    total_of_type DEBIT txs - total_of_type CREDIT txs
    + netIncome (incomeStatement fs)
  ∧ (total_of_type DEBIT txs = total_of_type CREDIT txs →
     netCashFlow (cashFlow fs) = netIncome (incomeStatement fs)).
Proof.
  pose proof (balance_identity txs) as H. cbv zeta in H.
  cbn -[to_trialBalance build_accountMap reduce_amount] in *.
  split; [lia | intros Hbal; lia].
Qed.

Lemma net_cash_flow_is_imbalance_plus_income_witness :
  total_of_type DEBIT pairedLedger = total_of_type CREDIT pairedLedger
  ∧ netCashFlow (cashFlow (calculateStatements pairedLedger)) = 10000.
Proof.
  split; [reflexivity |].
  rewrite (proj2 (net_cash_flow_is_imbalance_plus_income pairedLedger));
    reflexivity.
Defined.

(** ** The five sections *)

Lemma by_category_Permutation (l : list TrialBalanceItem) :
  List.filter (has_category REVENUE) l
  ++ List.filter (has_category EXPENSE) l
  ++ List.filter (has_category ASSET) l
  ++ List.filter (has_category LIABILITY) l
  ++ List.filter (has_category EQUITY) l ≡ₚ l.
Proof.
  induction l as [|i l IH]; [done |].
  rewrite !filter_has_category_cons.
  etransitivity; [| apply perm_skip, IH].
  destruct (tb_category i);
    repeat (case_decide; [done || idtac | done || idtac]);
    solve_Permutation.
Qed.

Lemma label_credit_normal l : map label (map credit_normal l) = map tb_accountName l.
Proof. rewrite map_map. by apply map_ext. Qed.

Lemma label_debit_normal l : map label (map debit_normal l) = map tb_accountName l.
Proof. rewrite map_map. by apply map_ext. Qed.

(** X3. Every row of the trial balance appears in exactly one of the five
    sections: the labels of the revenue, expense, asset and liability rows
    and of the equity rows before the Current Period Earnings row are a
    rearrangement of the account names of the trial balance, without
    repetition. *)
Theorem sections_partition_trial_balance (txs : list Transaction) :
  let fs := calculateStatements txs in
  ∃ raw,
    equity (balanceSheet fs) =
      raw ++ [mkStatementItem "Current Period Earnings"
                (netIncome (incomeStatement fs))]
    ∧ map label (revenue (incomeStatement fs) ++ expenses (incomeStatement fs)
                 ++ assets (balanceSheet fs) ++ liabilities (balanceSheet fs)
                 ++ raw)
      ≡ₚ map tb_accountName (trialBalance fs)
    ∧ NoDup (map label (revenue (incomeStatement fs)
                        ++ expenses (incomeStatement fs)
                        ++ assets (balanceSheet fs)
                        ++ liabilities (balanceSheet fs) ++ raw)).
Proof.
  cbn -[to_trialBalance build_accountMap].
  eexists. split; [reflexivity |].
  assert (Hp : map label
                 (map credit_normal (List.filter (has_category REVENUE)
                    (to_trialBalance (build_accountMap txs)))
                  ++ map debit_normal (List.filter (has_category EXPENSE)
                       (to_trialBalance (build_accountMap txs)))
                  ++ map debit_normal (List.filter (has_category ASSET)
                       (to_trialBalance (build_accountMap txs)))
                  ++ map credit_normal (List.filter (has_category LIABILITY)
                       (to_trialBalance (build_accountMap txs)))
                  ++ map credit_normal (List.filter (has_category EQUITY)
                       (to_trialBalance (build_accountMap txs))))
               ≡ₚ map tb_accountName (to_trialBalance (build_accountMap txs))).
  { rewrite !map_app, !label_credit_normal, !label_debit_normal.
    rewrite <- !map_app. apply Permutation_map, by_category_Permutation. }
  split; [exact Hp |]. rewrite Hp.
  rewrite names_to_trialBalance, keys_build_accountMap.
  apply NoDup_first_seen.
Qed.

(** ** Totals by category *)

Lemma net_in_to_trialBalance c m :
  Zsum (map net (List.filter (has_category c) (to_trialBalance m))) =
  column (net_in c) m.
Proof.
  unfold column, to_trialBalance. induction m as [|[k d] m IH]; [done |].
  cbn [map Zsum snd]. rewrite filter_has_category_cons.
  cbn [tb_category]. unfold net_in at 1.
  destruct (decide (ad_category d = c)); cbn [map Zsum]; rewrite IH;
    [done | lia].
Qed.

Lemma net_in_accumulate c m tx :
  agrees_with m [tx] →
  column (net_in c) (accumulate m tx) =
  column (net_in c) m
  + (if decide (tx_category tx = c) then signed_amount tx else 0).
Proof.
  intros Hm. unfold accumulate. rewrite column_map_set.
  specialize (Hm tx). unfold net_in, post, signed_amount.
  destruct (map_get (tx_accountName tx) m) as [[c0 d k]|].
  - rewrite <- (Hm _ ltac:(by left) eq_refl). simpl.
    destruct (tx_type tx); simpl; case_decide; lia.
  - simpl. destruct (tx_type tx); simpl; case_decide; lia.
Qed.

Lemma agrees_with_accumulate m tx txs :
  single_category (tx :: txs) → agrees_with m (tx :: txs) →
  agrees_with (accumulate m tx) txs.
Proof.
  intros Hs Hm tx' d Hin. rewrite map_get_accumulate.
  apply Forall_cons in Hs as [Htx _]. apply Forall_cons in Htx as [_ Htx].
  rewrite Forall_forall in Htx.
  case_decide as Hn.
  - intros [= <-]. rewrite <- (Htx tx' Hin Hn). unfold post.
    destruct (map_get (tx_accountName tx') m) as [d0|] eqn:Hd.
    + rewrite <- Hn in Hd.
      pose proof (Hm tx d0 ltac:(by left) Hd) as Hc.
      by destruct (tx_type tx).
    + by destruct (tx_type tx).
  - intros Hd. apply Hm; [by right | done].
Qed.

Lemma single_category_tail tx txs :
  single_category (tx :: txs) → single_category txs.
Proof.
  intros Hs. apply Forall_cons in Hs as [_ Hs].
  eapply Forall_impl; [exact Hs |].
  intros t Ht. by apply Forall_cons in Ht as [_ Ht].
Qed.

Lemma category_net_cons c tx txs :
  category_net c (tx :: txs) =
  (if decide (tx_category tx = c) then signed_amount tx else 0)
  + category_net c txs.
Proof. unfold category_net. rewrite filter_cons. by case_decide. Qed.

Lemma net_in_fold_accumulate c txs m :
  single_category txs → agrees_with m txs →
  column (net_in c) (fold_left accumulate txs m) =
  column (net_in c) m + category_net c txs.
Proof.
  revert m. induction txs as [|tx txs IH]; intros m Hs Hm.
  - unfold category_net. simpl. lia.
  - cbn [fold_left]. rewrite IH.
    + rewrite net_in_accumulate, category_net_cons; [lia |].
      intros t d Ht. apply list_elem_of_singleton in Ht as ->.
      apply Hm. by left.
    + by eapply single_category_tail.
    + by apply agrees_with_accumulate.
Qed.

(** X4. In exact arithmetic: when every account name comes with one
    category throughout the ledger, the totals of the statements are sums
    over the transactions of
    the category: total revenue is credits less debits of the Revenue
    transactions, total expenses debits less credits of the Expense
    transactions, total assets debits less credits of the Asset
    transactions and total liabilities credits less debits of the
    Liability transactions. *)
Theorem totals_by_category (txs : list Transaction) :
  single_category txs →
  let fs := calculateStatements txs in
  totalRevenue (incomeStatement fs) = - category_net REVENUE txs
  ∧ totalExpenses (incomeStatement fs) = category_net EXPENSE txs
  ∧ totalAssets (balanceSheet fs) = category_net ASSET txs
  ∧ totalLiabilities (balanceSheet fs) = - category_net LIABILITY txs
  ∧ totalEquity (balanceSheet fs) =
    - category_net EQUITY txs - category_net REVENUE txs
    - category_net EXPENSE txs.
Proof.
  intros Hs. cbn -[to_trialBalance build_accountMap].
  rewrite !reduce_amount_Zsum, map_app, Zsum_app.
  rewrite !amount_debit_normal, !amount_credit_normal, !net_in_to_trialBalance.
  unfold build_accountMap.
  rewrite !net_in_fold_accumulate by (done || by intros ? ? ? ?).
  unfold column. simpl. lia.
Qed.

Lemma totals_by_category_witness :
  single_category sampleTransactions
  ∧ totalRevenue (incomeStatement (calculateStatements sampleTransactions)) =
    - category_net REVENUE sampleTransactions.
Proof.
  assert (Hs : single_category sampleTransactions).
  { apply (bool_decide_unpack (single_category sampleTransactions)).
    vm_compute. exact I. }
  split; [exact Hs |].
  apply (totals_by_category sampleTransactions Hs).
Defined.

(** ** Notes *)

Lemma filter_complement_Permutation {A} (p : A → bool) l :
  List.filter p l ++ List.filter (fun x => negb (p x)) l ≡ₚ l.
Proof.
  induction l as [|x l IH]; simpl; [done |].
  destruct (p x); simpl.
  - by constructor.
  - rewrite <- Permutation_middle. by constructor.
Qed.

(** X5. The notes are four, numbered 1 to 4 in order; note 1 carries no
    rows, note 2 the revenue rows; note 3 carries the asset rows whose label
    contains a cash-account substring and note 4 the others, so that the
    rows of notes 3 and 4 are a rearrangement of the asset rows and, in
    exact arithmetic, their two totals add up to total assets. *)
Theorem notes_split_assets (txs : list Transaction) :
  let fs := calculateStatements txs in
  ∃ c1 c2 c3 c4 cashRows otherRows,
    notes fs =
      [ mkFinancialNote 1 "Basis of Preparation" c1 None;
        mkFinancialNote 2 "Revenue Recognition" c2
          (Some (revenue (incomeStatement fs)));
        mkFinancialNote 3 "Cash and Cash Equivalents" c3 (Some cashRows);
        mkFinancialNote 4 "Property, Plant and Equipment" c4 (Some otherRows) ]
    ∧ cashRows ++ otherRows ≡ₚ assets (balanceSheet fs)
    ∧ reduce_amount cashRows + reduce_amount otherRows =
      totalAssets (balanceSheet fs)
    ∧ Forall (fun r => is_cash_account (label r) = true) cashRows
    ∧ Forall (fun r => is_cash_account (label r) = false) otherRows.
Proof.
  cbn -[to_trialBalance build_accountMap is_cash_account].
  do 6 eexists. split; [reflexivity |].
  set (assetItems := map debit_normal _).
  pose proof (filter_complement_Permutation
                (fun a => is_cash_account (label a)) assetItems) as Hp.
  split; [exact Hp |]. split.
  - rewrite !reduce_amount_Zsum, <- Zsum_app, <- map_app.
    apply Zsum_Permutation, Permutation_map, Hp.
  - split; apply Forall_forall; intros r Hr;
      apply list_elem_of_In, filter_In in Hr as [_ Hr];
      [done | by apply negb_true_iff].
Qed.

(** ** Equity roll-forward: the footer *)

Lemma fold_left_field {A} (f : A → Z) l a :
  fold_left (fun s r => s + f r) l a = a + Zsum (map f l).
Proof.
  revert a. induction l as [|x l IH]; intros a; simpl; [lia |].
  rewrite IH. lia.
Qed.

Lemma equity_change_columns raw :
  Zsum (map ec_openingBalance (map equity_change raw))
  + Zsum (map ec_additions (map equity_change raw)) = Zsum (map amount raw)
  ∧ Zsum (map ec_netIncome (map equity_change raw)) = 0
  ∧ Zsum (map ec_withdrawals (map equity_change raw)) = 0
  ∧ Zsum (map ec_closingBalance (map equity_change raw)) = Zsum (map amount raw).
Proof.
  induction raw as [|r raw (IH1 & IH2 & IH3 & IH4)]; [done |].
  simpl. case_bool_decide; lia.
Qed.

(** X6. In exact arithmetic, the footer of the equity table is consistent:
    the totals of the opening balances, of net income and of the
    additions, less the total of
    the withdrawals, give the closing total shown, which is the total
    equity of the balance sheet; the closing balances of the rows add up to
    it as well, the net income column totals the period's net income and
    the withdrawals column is zero. *)
Theorem equity_footer_consistent (txs : list Transaction) :
  let fs := calculateStatements txs in
  let ft := equityFooter fs in
  ft_opening ft + ft_netIncome ft + ft_additions ft - ft_withdrawals ft =
    ft_closing ft
  ∧ Zsum (map ec_closingBalance (equityChanges fs)) = ft_closing ft
  ∧ ft_netIncome ft = netIncome (incomeStatement fs)
  ∧ ft_withdrawals ft = 0.
Proof.
  cbn -[to_trialBalance build_accountMap equity_change].
  rewrite !fold_left_field, !reduce_amount_Zsum, !map_app, !Zsum_app.
  destruct (equity_change_columns
              (map credit_normal
                 (List.filter (has_category EQUITY)
                    (to_trialBalance (build_accountMap txs)))))
    as (H1 & H2 & H3 & H4).
  rewrite H2, H3, H4.
  cbn [map Zsum ec_openingBalance ec_additions ec_netIncome ec_withdrawals
       ec_closingBalance amount].
  lia.
Qed.

(** ** Cash-flow buckets: what they hold *)

Lemma filter_filter_andb {A} (p q : A → bool) l :
  List.filter q (List.filter p l) = List.filter (fun x => p x && q x) l.
Proof.
  induction l as [|x l IH]; simpl; [done |].
  destruct (p x); simpl; [destruct (q x); by rewrite IH | done].
Qed.

Lemma classify_cash b tx :
  on_cash_account tx = true →
  classify b tx =
  mkCashBuckets
    (op b ++ (if is_operating tx then [cash_row tx] else []))
    (inv b)
    (fin b ++ (if is_financing tx then [cash_row tx] else [])).
Proof.
  unfold on_cash_account, classify, is_operating, is_financing, cash_row,
    signed_amount.
  intros ->. rewrite andb_false_r. destruct b as [o i f]. simpl.
  destruct (tx_category tx); simpl; by rewrite ?app_nil_r.
Qed.

Lemma fold_classify_cash l b :
  Forall (fun tx => on_cash_account tx = true) l →
  fold_left classify l b =
  mkCashBuckets (op b ++ map cash_row (List.filter is_operating l))
                (inv b)
                (fin b ++ map cash_row (List.filter is_financing l)).
Proof.
  intros Hl. revert b. induction Hl as [|tx l Htx _ IH]; intros b.
  - simpl. rewrite !app_nil_r. by destruct b.
  - cbn [fold_left List.filter]. rewrite IH, classify_cash by done. simpl.
    destruct (is_operating tx), (is_financing tx); simpl;
      by rewrite <- ?app_assoc, ?app_nil_r.
Qed.

Lemma cash_buckets_filters txs :
  cash_buckets txs =
  mkCashBuckets
    (map cash_row (List.filter (fun tx => on_cash_account tx && is_operating tx) txs))
    []
    (map cash_row (List.filter (fun tx => on_cash_account tx && is_financing tx) txs)).
Proof.
  unfold cash_buckets. fold on_cash_account.
  rewrite fold_classify_cash.
  - simpl. by rewrite !filter_filter_andb.
  - apply Forall_forall. intros tx Hin.
    apply list_elem_of_In, filter_In in Hin. apply Hin.
Qed.

(** X7. The operating bucket holds, in ledger order, one row (description,
    amount signed by type) for every transaction on a cash account whose
    category is Revenue or Expense, and the financing bucket one row for
    every transaction on a cash account whose category is Liability or
    Equity. *)
Theorem cash_flow_buckets (txs : list Transaction) :
  let cf := cashFlow (calculateStatements txs) in
  operating cf =
    map cash_row
      (List.filter (fun tx => on_cash_account tx && is_operating tx) txs)
  ∧ financing cf =
    map cash_row
      (List.filter (fun tx => on_cash_account tx && is_financing tx) txs).
Proof.
  cbn -[cash_buckets]. by rewrite cash_buckets_filters.
Qed.

(** X8. A transaction of category Asset lands in no bucket: when every
    transaction on a cash account has category Asset, as in a ledger that
    posts the cash side of each entry to the cash account itself, the
    operating, investing and financing lists are all empty. *)
Theorem cash_side_postings_give_empty_cash_flow (txs : list Transaction) :
  Forall (fun tx => on_cash_account tx = true → tx_category tx = ASSET) txs →
  let cf := cashFlow (calculateStatements txs) in
  operating cf = [] ∧ investing cf = [] ∧ financing cf = [].
Proof.
  intros Hall. cbn -[cash_buckets]. rewrite cash_buckets_filters. simpl.
  assert (Hnone : ∀ q : Transaction → bool,
            (∀ tx, tx_category tx = ASSET → q tx = false) →
            List.filter (fun tx => on_cash_account tx && q tx) txs = []).
  { intros q Hq. induction Hall as [|tx l Htx _ IH]; simpl; [done |].
    destruct (on_cash_account tx) eqn:Hc; simpl; [|exact IH].
    by rewrite (Hq tx (Htx eq_refl)). }
  rewrite !Hnone; [done | |];
    intros tx Hc; unfold is_financing, is_operating; by rewrite Hc.
Qed.

Lemma cash_side_postings_give_empty_cash_flow_witness :
  Forall (fun tx => on_cash_account tx = true → tx_category tx = ASSET)
         sampleTransactions
  ∧ operating (cashFlow (calculateStatements sampleTransactions)) = []
  ∧ investing (cashFlow (calculateStatements sampleTransactions)) = []
  ∧ financing (cashFlow (calculateStatements sampleTransactions)) = [].
Proof.
  assert (H : Forall (fun tx => on_cash_account tx = true →
                                tx_category tx = ASSET) sampleTransactions).
  { repeat (constructor; [vm_compute; by (reflexivity || discriminate) |]).
    constructor. }
  split; [exact H |].
  apply (cash_side_postings_give_empty_cash_flow sampleTransactions H).
Defined.

(** ** Appending to the ledger *)


(** * Further properties of [performBankReconciliation] *)

Lemma fold_recon_book_pass sts books acc ids :
  fold_left (recon_book sts) books (acc, ids) =
  (acc ++ (book_pass sts books ids).1, (book_pass sts books ids).2).
Proof.
  revert acc ids. induction books as [|book books IH]; intros acc ids.
  - simpl. by rewrite app_nil_r.
  - cbn [fold_left book_pass]. unfold recon_book at 2.
    fold (unconsumed_match book ids).
    destruct (List.find (unconsumed_match book ids) sts) as [m|];
      rewrite IH;
      destruct (book_pass sts books _) as [ms ids']; simpl;
      by rewrite <- app_assoc.
Qed.

Lemma performBankReconciliation_passes books sts :
  performBankReconciliation books sts =
  (book_pass sts books ∅).1
  ++ map (fun st => mkReconMatch None (Some st) missing_in_book)
         (not_consumed (book_pass sts books ∅).2 sts).
Proof.
  unfold performBankReconciliation.
  rewrite fold_recon_book_pass, fold_recon_statement_contract. done.
Qed.

Lemma unconsumed_match_true book ids st :
  unconsumed_match book ids st = true ↔
  agrees book st = true ∧ st_id st ∉ ids.
Proof.
  unfold unconsumed_match, agrees.
  rewrite !andb_true_iff, negb_true_iff, bool_decide_eq_false. tauto.
Qed.

Lemma agrees_true book st :
  agrees book st = true ↔
  st_date st = tx_date book ∧ st_amount st = signed_amount book.
Proof.
  unfold agrees. by rewrite andb_true_iff, !bool_decide_eq_true.
Qed.

Lemma book_pass_books sts books ids :
  map bookEntry (book_pass sts books ids).1 = map Some books
  ∧ Forall (fun r => status r = matched ∨ status r = missing_in_statement)
           (book_pass sts books ids).1.
Proof.
  revert ids. induction books as [|book books IH]; intros ids; simpl.
  - done.
  - destruct (List.find _ sts) as [m|].
    + destruct (IH (ids ∪ {[st_id m]})) as [Hb Hs].
      destruct (book_pass sts books _) as [ms ids']. simpl in *.
      split; [by f_equal | constructor; [by left | done]].
    + destruct (IH ids) as [Hb Hs].
      destruct (book_pass sts books _) as [ms ids']. simpl in *.
      split; [by f_equal | constructor; [by right | done]].
Qed.

Lemma book_pass_grows sts books ids :
  ids ⊆ (book_pass sts books ids).2.
Proof.
  revert ids. induction books as [|book books IH]; intros ids; simpl.
  - done.
  - destruct (List.find _ sts) as [m|].
    + pose proof (IH (ids ∪ {[st_id m]})) as H.
      destruct (book_pass sts books _) as [ms ids']. simpl in *. set_solver.
    + pose proof (IH ids) as H.
      destruct (book_pass sts books _) as [ms ids']. by simpl in *.
Qed.

Lemma Forall_well_formed_weaken books books' sts l :
  (∀ b, b ∈ books → b ∈ books') →
  Forall (well_formed_record books sts) l →
  Forall (well_formed_record books' sts) l.
Proof.
  intros Hsub H. eapply Forall_impl; [exact H |].
  intros r. unfold well_formed_record.
  destruct (status r); naive_solver.
Qed.

Lemma book_pass_well_formed sts books ids :
  Forall (well_formed_record books sts) (book_pass sts books ids).1.
Proof.
  revert ids. induction books as [|book books IH]; intros ids; simpl.
  - constructor.
  - destruct (List.find _ sts) as [m|] eqn:Hf.
    + pose proof (IH (ids ∪ {[st_id m]})) as H.
      destruct (book_pass sts books _) as [ms ids']. simpl in *.
      constructor.
      * apply find_some in Hf as [Hin Hm].
        apply unconsumed_match_true in Hm as [Hm _].
        apply agrees_true in Hm as [Hd Ha].
        exists book, m. repeat split; try done; [by left |].
        by apply list_elem_of_In.
      * eapply Forall_well_formed_weaken; [|exact H]. intros b Hb. by right.
    + pose proof (IH ids) as H.
      destruct (book_pass sts books _) as [ms ids']. simpl in *.
      constructor.
      * split; [done |]. exists book. split; [done | by left].
      * eapply Forall_well_formed_weaken; [|exact H]. intros b Hb. by right.
Qed.

Lemma missing_in_book_well_formed books sts (l : list BankStatementItem) :
  (∀ st, st ∈ l → st ∈ sts) →
  Forall (well_formed_record books sts)
    (map (fun st => mkReconMatch None (Some st) missing_in_book) l).
Proof.
  intros Hl. apply Forall_forall. intros r Hr.
  apply list_elem_of_In, in_map_iff in Hr as (st & <- & Hin).
  split; [done |]. exists st. split; [done |].
  by apply Hl, list_elem_of_In.
Qed.

Lemma not_consumed_elem ids sts st :
  st ∈ not_consumed ids sts ↔ st ∈ sts ∧ st_id st ∉ ids.
Proof.
  unfold not_consumed.
  rewrite !list_elem_of_In, filter_In, negb_true_iff, bool_decide_eq_false.
  done.
Qed.

(** X10. Every book entry appears in the output exactly once and in input
    order: the output starts with one record per book entry, each matched
    or missing_in_statement, and continues with records that carry no book
    entry, all missing_in_book; its length is the number of book entries
    plus the number of missing_in_book records. *)
Theorem reconciliation_books_in_order (bookEntries : list Transaction)
    (statementEntries : list BankStatementItem) :
  ∃ front tail,
    performBankReconciliation bookEntries statementEntries = front ++ tail
    ∧ map bookEntry front = map Some bookEntries
    ∧ Forall (fun r => status r = matched ∨ status r = missing_in_statement)
             front
    ∧ Forall (fun r => bookEntry r = None ∧ status r = missing_in_book) tail
    ∧ length (performBankReconciliation bookEntries statementEntries) =
      (length bookEntries
       + count_status missing_in_book
           (performBankReconciliation bookEntries statementEntries))%nat.
Proof.
  rewrite performBankReconciliation_passes.
  destruct (book_pass_books statementEntries bookEntries ∅) as [Hb Hs].
  set (front := (book_pass statementEntries bookEntries ∅).1) in *.
  set (left_over := not_consumed _ statementEntries).
  exists front, (map (fun st => mkReconMatch None (Some st) missing_in_book)
                     left_over).
  split; [done |]. split; [done |]. split; [done |]. split.
  - apply Forall_forall. intros r Hr.
    by apply list_elem_of_In, in_map_iff in Hr as (st & <- & _).
  - unfold count_status. rewrite length_app, List.filter_app, length_app.
    rewrite <- (length_map bookEntry front), Hb, length_map.
    assert (H1 : List.filter (fun r => bool_decide (status r = missing_in_book))
                   front = []).
    { clear Hb. induction Hs as [|r l Hr _ IH]; simpl; [done |].
      rewrite bool_decide_eq_false_2; [done |].
      intros Hm. destruct Hr as [Hr|Hr]; congruence. }
    assert (H2 : ∀ l : list BankStatementItem,
              List.filter (fun r => bool_decide (status r = missing_in_book))
                (map (fun st => mkReconMatch None (Some st) missing_in_book) l)
              = map (fun st => mkReconMatch None (Some st) missing_in_book) l).
    { induction l as [|x l IH]; simpl; [done |]. by rewrite IH. }
    by rewrite H1, H2.
Qed.

Lemma reconciliation_records_well_formed_aux books sts :
  Forall (well_formed_record books sts) (performBankReconciliation books sts).
Proof.
  rewrite performBankReconciliation_passes. apply Forall_app. split.
  - apply book_pass_well_formed.
  - apply missing_in_book_well_formed. intros st Hst.
    by apply not_consumed_elem in Hst as [Hst _].
Qed.

(** X11. Every record is well formed for its status: a matched record pairs
    a book entry of the input with a statement entry of the input that has
    the same date and the signed amount of the book entry; a
    missing_in_statement record carries a book entry of the input and no
    statement entry; a missing_in_book record carries a statement entry of
    the input and no book entry. *)
Theorem reconciliation_records_well_formed (bookEntries : list Transaction)
    (statementEntries : list BankStatementItem) :
  Forall (well_formed_record bookEntries statementEntries)
         (performBankReconciliation bookEntries statementEntries).
Proof. apply reconciliation_records_well_formed_aux. Qed.

Lemma matched_ids_app l k : matched_ids (l ++ k) = matched_ids l ++ matched_ids k.
Proof. unfold matched_ids. apply omap_app. Qed.

Lemma matched_ids_missing_in_book (l : list BankStatementItem) :
  matched_ids (map (fun st => mkReconMatch None (Some st) missing_in_book) l)
  = [].
Proof. induction l as [|x l IH]; [done |]. exact IH. Qed.

Lemma book_pass_ids sts books ids :
  (book_pass sts books ids).2 =
    ids ∪ list_to_set (matched_ids (book_pass sts books ids).1)
  ∧ NoDup (matched_ids (book_pass sts books ids).1)
  ∧ Forall (fun x => x ∉ ids) (matched_ids (book_pass sts books ids).1).
Proof.
  revert ids. induction books as [|book books IH]; intros ids; simpl.
  - split; [set_solver |]. split; constructor.
  - destruct (List.find _ sts) as [m|] eqn:Hf.
    + destruct (IH (ids ∪ {[st_id m]})) as (Hids & Hnd & Hfresh).
      destruct (book_pass sts books _) as [ms ids']. simpl in *.
      apply find_some in Hf as [_ Hm].
      apply unconsumed_match_true in Hm as [_ Hm].
      change (matched_ids (mkReconMatch (Some book) (Some m) matched :: ms))
        with (st_id m :: matched_ids ms).
      rewrite Forall_forall in Hfresh.
      split; [rewrite Hids; set_solver |]. split.
      * apply NoDup_cons. split; [|done].
        intros Hin. apply (Hfresh _ Hin). set_solver.
      * constructor; [done |]. apply Forall_forall. intros x Hx.
        specialize (Hfresh x Hx). set_solver.
    + destruct (IH ids) as (Hids & Hnd & Hfresh).
      destruct (book_pass sts books _) as [ms ids']. simpl in *.
      by change (matched_ids
                   (mkReconMatch (Some book) None missing_in_statement :: ms))
        with (matched_ids ms).
Qed.

(** X12. No statement id is used twice: the ids of the statement entries
    paired in matched records are pairwise distinct, and no statement
    entry reported missing_in_book has the id of a paired one.  This holds
    whether or not the statement ids are unique. *)
Theorem reconciliation_ids_used_once (bookEntries : list Transaction)
    (statementEntries : list BankStatementItem) :
  let out := performBankReconciliation bookEntries statementEntries in
  NoDup (matched_ids out)
  ∧ Forall (fun r => match status r, statementEntry r with
                     | missing_in_book, Some st => st_id st ∉ matched_ids out
                     | _, _ => True
                     end) out.
Proof.
  cbv zeta. rewrite performBankReconciliation_passes.
  destruct (book_pass_ids statementEntries bookEntries ∅) as (Hids & Hnd & _).
  destruct (book_pass_books statementEntries bookEntries ∅) as [_ Hs].
  rewrite matched_ids_app, matched_ids_missing_in_book, app_nil_r.
  split; [done |]. apply Forall_app. split.
  - eapply Forall_impl; [exact Hs |]. intros r [-> | ->]; done.
  - apply Forall_forall. intros r Hr.
    apply list_elem_of_In, in_map_iff in Hr as (st & <- & Hin). simpl.
    apply list_elem_of_In, not_consumed_elem in Hin as [_ Hin].
    rewrite Hids in Hin. set_solver.
Qed.

Lemma book_pass_exhaustive sts books ids :
  Forall (fun r => status r = missing_in_statement →
                   ∀ b st, bookEntry r = Some b → st ∈ sts →
                           agrees b st = true →
                           st_id st ∈ (book_pass sts books ids).2)
         (book_pass sts books ids).1.
Proof.
  revert ids. induction books as [|book books IH]; intros ids; simpl.
  - constructor.
  - destruct (List.find _ sts) as [m|] eqn:Hf.
    + pose proof (IH (ids ∪ {[st_id m]})) as H.
      destruct (book_pass sts books _) as [ms ids']. simpl in *.
      constructor; [done | exact H].
    + pose proof (IH ids) as H. pose proof (book_pass_grows sts books ids) as Hg.
      destruct (book_pass sts books _) as [ms ids']. simpl in *.
      constructor; [|exact H]. simpl.
      intros _ b st [= <-] Hst Hag.
      apply list_elem_of_In in Hst.
      pose proof (find_none _ _ Hf st Hst) as Hn.
      destruct (decide (st_id st ∈ ids)) as [Hin|Hnin]; [set_solver |].
      assert (unconsumed_match book ids st = true) as Ht
        by (by apply unconsumed_match_true).
      congruence.
Qed.

(** X13. The matching leaves no pair behind: a book entry reported
    missing_in_statement and a statement entry reported missing_in_book
    never have the same date and signed amount.  This holds whether or not
    the statement ids are unique. *)
Theorem reconciliation_leaves_no_pair (bookEntries : list Transaction)
    (statementEntries : list BankStatementItem) (r1 r2 : ReconMatch)
    (b : Transaction) (s : BankStatementItem) :
  r1 ∈ performBankReconciliation bookEntries statementEntries →
  r2 ∈ performBankReconciliation bookEntries statementEntries →
  status r1 = missing_in_statement → bookEntry r1 = Some b →
  status r2 = missing_in_book → statementEntry r2 = Some s →
  ¬ (st_date s = tx_date b ∧ st_amount s = signed_amount b).
Proof.
  rewrite performBankReconciliation_passes.
  intros H1 H2 Hs1 Hb Hs2 Hs Hag. apply agrees_true in Hag.
  pose proof (book_pass_exhaustive statementEntries bookEntries ∅) as Hex.
  destruct (book_pass_books statementEntries bookEntries ∅) as [_ Hst].
  rewrite Forall_forall in Hex, Hst.
  apply elem_of_app in H1 as [H1|H1].
  2: { apply list_elem_of_In, in_map_iff in H1 as (st & <- & _). done. }
  apply elem_of_app in H2 as [H2|H2].
  { destruct (Hst r2 H2); congruence. }
  apply list_elem_of_In, in_map_iff in H2 as (st & <- & Hin).
  simpl in Hs. injection Hs as ->.
  apply list_elem_of_In, not_consumed_elem in Hin as [Hin Hfree].
  apply Hfree. by apply (Hex r1 H1 Hs1 b s Hb Hin).
Qed.

Lemma reconciliation_leaves_no_pair_witness :
  ¬ (st_date (mkBankStatementItem "st5" "2023-10-22" "BANK FEE" (-25)) =
       tx_date (mkTransaction "10" "2023-10-20" "Employee Salaries" "Cash"
                  ASSET 4500 CREDIT)
     ∧ st_amount (mkBankStatementItem "st5" "2023-10-22" "BANK FEE" (-25)) =
       signed_amount (mkTransaction "10" "2023-10-20" "Employee Salaries"
                        "Cash" ASSET 4500 CREDIT)).
Proof.
  apply (reconciliation_leaves_no_pair
           (bankTransactions sampleTransactions) sampleBankStatement
           (mkReconMatch
              (Some (mkTransaction "10" "2023-10-20" "Employee Salaries"
                       "Cash" ASSET 4500 CREDIT))
              None missing_in_statement)
           (mkReconMatch None
              (Some (mkBankStatementItem "st5" "2023-10-22" "BANK FEE" (-25)))
              missing_in_book)).
  - vm_compute. do 4 right. left.
  - vm_compute. do 5 right. left.
  - reflexivity.
  - reflexivity.
  - reflexivity.
  - reflexivity.
Defined.

(** ** With unique ids: the statement side *)

Lemma match_books_statement_entries books u :
  omap statementEntry (match_books books u).1 ++ (match_books books u).2 ≡ₚ u.
Proof.
  revert u. induction books as [|book books IH]; intros u; simpl.
  - done.
  - destruct (take_first (agrees book) u) as [[st u']|] eqn:Ht.
    + apply take_first_Some in Ht as (l1 & l2 & -> & -> & _ & _).
      pose proof (IH (l1 ++ l2)) as H.
      destruct (match_books books (l1 ++ l2)) as [ms rest]. simpl in *.
      rewrite H. apply Permutation_middle.
    + pose proof (IH u) as H.
      destruct (match_books books u) as [ms rest]. by simpl in *.
Qed.

Lemma omap_missing_in_book (l : list BankStatementItem) :
  omap statementEntry
    (map (fun st => mkReconMatch None (Some st) missing_in_book) l) = l.
Proof. induction l as [|x l IH]; [done |]. simpl in *. by f_equal. Qed.

Lemma statement_entries_count books sts out :
  Forall (well_formed_record books sts) out →
  length (omap statementEntry out) =
  (count_status matched out + count_status missing_in_book out)%nat.
Proof.
  unfold count_status. induction 1 as [|r out Hr _ IH]; [done |].
  unfold well_formed_record in Hr. cbn [omap list_omap List.filter].
  destruct (status r) eqn:Hs; simpl.
  - destruct Hr as (b & st & _ & -> & _). simpl. by rewrite IH.
  - destruct Hr as [-> _]. by rewrite IH.
  - destruct Hr as (_ & st & -> & _). simpl. rewrite IH. lia.
  - done.
Qed.

(** X14. When the statement entries have unique ids, every statement entry
    appears in exactly one record of the output: the statement entries
    carried by the records are a rearrangement of the statement list, and
    the matched and the missing_in_book records are together as many as
    the statement entries. *)
Theorem reconciliation_statement_entries_once (bookEntries : list Transaction)
    (statementEntries : list BankStatementItem) :
  NoDup (map st_id statementEntries) →
  let out := performBankReconciliation bookEntries statementEntries in
  omap statementEntry out ≡ₚ statementEntries
  ∧ (count_status matched out + count_status missing_in_book out)%nat =
    length statementEntries.
Proof.
  intros Hnd out.
  assert (Hp : omap statementEntry out ≡ₚ statementEntries).
  { subst out. rewrite performBankReconciliation_contract by done.
    unfold reconciliation_contract.
    pose proof (match_books_statement_entries bookEntries statementEntries) as H.
    destruct (match_books bookEntries statementEntries) as [ms u]. simpl in H.
    by rewrite omap_app, omap_missing_in_book. }
  split; [exact Hp |].
  rewrite <- (statement_entries_count bookEntries statementEntries).
  - by rewrite Hp.
  - apply reconciliation_records_well_formed_aux.
Qed.

Lemma reconciliation_statement_entries_once_witness :
  NoDup (map st_id sampleBankStatement)
  ∧ (count_status matched (reconMatches sampleTransactions)
     + count_status missing_in_book (reconMatches sampleTransactions))%nat =
    5%nat.
Proof.
  assert (Hnd : NoDup (map st_id sampleBankStatement)).
  { apply (bool_decide_unpack (NoDup (map st_id sampleBankStatement))).
    vm_compute. exact I. }
  split; [exact Hnd |].
  apply (reconciliation_statement_entries_once
           (bankTransactions sampleTransactions) sampleBankStatement Hnd).
Defined.

(** ** Empty inputs, and the page's call *)

Lemma book_pass_empty_statement books ids :
  book_pass [] books ids =
  (map (fun b => mkReconMatch (Some b) None missing_in_statement) books, ids).
Proof.
  induction books as [|b books IH]; simpl; [done |]. by rewrite IH.
Qed.

(** X15. With no book entries, every statement entry is reported
    missing_in_book, in statement order, also when ids repeat; with no
    statement entries, every book entry is reported missing_in_statement,
    in book order. *)
Theorem reconciliation_empty_sides (bookEntries : list Transaction)
    (statementEntries : list BankStatementItem) :
  performBankReconciliation [] statementEntries =
    map (fun st => mkReconMatch None (Some st) missing_in_book)
        statementEntries
  ∧ performBankReconciliation bookEntries [] =
    map (fun b => mkReconMatch (Some b) None missing_in_statement)
        bookEntries.
Proof.
  rewrite !performBankReconciliation_passes. split.
  - simpl. by rewrite not_consumed_empty.
  - rewrite book_pass_empty_statement. simpl. by rewrite app_nil_r.
Qed.




(** * Further properties of [getTrendData] *)

Lemma getTrendData_rows getMonth txs :
  getTrendData getMonth txs = map (month_row getMonth txs) months.
Proof.
  unfold getTrendData. apply map_ext. intros m. fold zeroTrend.
  by rewrite trend_map_bucket.
Qed.

(** X17. For every ledger, also one with dates that do not parse, the row
    at position [i] of the series (0 for Jan) holds as revenue the sum, in
    ledger order, of the amounts of the Revenue transactions whose date has
    month index [i], as expense the sum of the amounts of the Expense
    transactions whose date has month index [i], over all years, and as
    profit the revenue less the expense. *)
Theorem trend_rows_are_month_sums (getMonth : string → option nat)
    (txs : list Transaction) (i : nat) (row : TrendRow) :
  getTrendData getMonth txs !! i = Some row →
  row_revenue row = month_sum getMonth i REVENUE txs
  ∧ row_expense row = month_sum getMonth i EXPENSE txs
  ∧ row_profit row = row_revenue row - row_expense row.
Proof.
  intros (m & _ & _ & Hr & He & Hp)%getTrendData_lookup.
  by rewrite Hp, Hr, He.
Qed.

Lemma trend_rows_are_month_sums_witness :
  getTrendData iso_month sampleTransactions !! 9%nat =
    Some (mkTrendRow "Oct" 12000 6500 5500)
  ∧ month_sum iso_month 9 REVENUE sampleTransactions = 12000
  ∧ month_sum iso_month 9 EXPENSE sampleTransactions = 6500.
Proof.
  assert (H : getTrendData iso_month sampleTransactions !! 9%nat =
              Some (mkTrendRow "Oct" 12000 6500 5500)) by reflexivity.
  split; [exact H |].
  destruct (trend_rows_are_month_sums iso_month sampleTransactions 9 _ H)
    as (Hr & He & _).
  split; [by rewrite <- Hr | by rewrite <- He].
Defined.

Lemma month_total_dated getMonth m c txs :
  month_total getMonth (Some m) c (List.filter (dated getMonth) txs) =
  month_total getMonth (Some m) c txs.
Proof.
  induction txs as [|tx txs IH]; [done |].
  cbn [List.filter]. rewrite (month_total_cons getMonth (Some m) c tx txs).
  unfold dated at 1. destruct (monthLabel_of getMonth tx) as [k|] eqn:Hk.
  - by rewrite month_total_cons, IH.
  - rewrite IH, decide_False; [done |]. intros [Hm _]. congruence.
Qed.

(** X18. A transaction whose date gives no month label (an invalid date)
    is silently left out of the series: the rows are those of the ledger
    without such transactions. *)
Theorem trend_ignores_undated (getMonth : string → option nat)
    (txs : list Transaction) :
  getTrendData getMonth txs =
  getTrendData getMonth (List.filter (dated getMonth) txs).
Proof.
  rewrite !getTrendData_rows. apply map_ext. intros m.
  unfold month_row. by rewrite !month_total_dated.
Qed.

Lemma month_total_Permutation getMonth k c txs txs' :
  txs ≡ₚ txs' → month_total getMonth k c txs = month_total getMonth k c txs'.
Proof.
  intros Hp. unfold month_total. apply Zsum_Permutation.
  apply Permutation_map. by rewrite Hp.
Qed.

(** X19. The series does not depend on the order of the transactions. *)
Theorem trend_order_independent (getMonth : string → option nat)
    (txs txs' : list Transaction) :
  txs ≡ₚ txs' → getTrendData getMonth txs = getTrendData getMonth txs'.
Proof.
  intros Hp. rewrite !getTrendData_rows. apply map_ext. intros m.
  unfold month_row. by rewrite !(month_total_Permutation _ _ _ _ _ Hp).
Qed.

Lemma trend_order_independent_witness :
  getTrendData iso_month sampleTransactions =
  getTrendData iso_month (rev sampleTransactions).
Proof.
  apply (trend_order_independent iso_month sampleTransactions
           (rev sampleTransactions)).
  apply Permutation_rev.
Defined.

Lemma month_total_all_category getMonth c txs :
  Forall (fun tx => ∃ i, getMonth (tx_date tx) = Some i ∧ (i < 12)%nat) txs →
  Zsum (map (fun m => month_total getMonth (Some m) c txs) months) =
  category_total c txs.
Proof.
  unfold category_total. induction 1 as [|tx txs (i & Hi & Hlt) _ IH].
  - done.
  - assert (Hlabel : monthLabel_of getMonth tx = months !! i)
      by (unfold monthLabel_of; by rewrite Hi).
    rewrite (map_ext _ _ (fun m => month_total_cons getMonth (Some m) c tx txs)).
    rewrite Zsum_map_add, IH, filter_cons.
    destruct (decide (tx_category tx = c)) as [Hc|Hc]; cbn [map Zsum].
    + f_equal.
      etransitivity; [| exact (month_indicator i (tx_amount tx) Hlt)].
      f_equal. apply map_ext. intros m.
      destruct (decide (in_month getMonth (Some m) c tx)) as [[H1 _]|Hn],
               (decide (months !! i = Some m)) as [H3|H3]; try done.
      * congruence.
      * exfalso. apply Hn. split; congruence.
    + rewrite indicator_zero; [lia |]. by intros m [_ ?].
Qed.

(** X20. In exact arithmetic: when every date has a month index below
    twelve, the twelve expenses add up to the sum of the amounts of the
    Expense transactions,
    and the twelve profits to the sum of the Revenue amounts less the sum
    of the Expense amounts. *)
Theorem trend_expense_and_profit_totals (getMonth : string → option nat)
    (txs : list Transaction) :
  Forall (fun tx => ∃ i, getMonth (tx_date tx) = Some i ∧ (i < 12)%nat) txs →
  let out := getTrendData getMonth txs in
  Zsum (map row_expense out) = category_total EXPENSE txs
  ∧ Zsum (map row_profit out) =
    category_total REVENUE txs - category_total EXPENSE txs.
Proof.
  intros Hvalid out. subst out. rewrite getTrendData_rows, !map_map.
  unfold month_row. cbn [row_expense row_profit].
  rewrite <- !(month_total_all_category getMonth _ txs Hvalid). split; [done |].
  generalize months. intros l.
  induction l as [|m l IH]; cbn [map Zsum]; [done |]. rewrite IH. lia.
Qed.

Lemma trend_expense_and_profit_totals_witness :
  Forall (fun tx => ∃ i, iso_month (tx_date tx) = Some i ∧ (i < 12)%nat)
         sampleTransactions
  ∧ Zsum (map row_expense (getTrendData iso_month sampleTransactions)) = 8500
  ∧ Zsum (map row_profit (getTrendData iso_month sampleTransactions)) = 43500.
Proof.
  assert (Hvalid : Forall (fun tx => ∃ i, iso_month (tx_date tx) = Some i
                                          ∧ (i < 12)%nat) sampleTransactions).
  { repeat (constructor; [eexists; split; [reflexivity | simpl; lia] |]).
    constructor. }
  split; [exact Hvalid |].
  destruct (trend_expense_and_profit_totals iso_month sampleTransactions Hvalid)
    as [He Hp].
  rewrite He, Hp. split; reflexivity.
Defined.

(** * The cash-account substrings *)

Lemma append_cons a s t :
  String.append (String a s) t = String a (String.append s t).
Proof. reflexivity. Qed.

Lemma append_assoc_string s t u :
  String.append (String.append s t) u = String.append s (String.append t u).
Proof.
  induction s as [|a s IH]; [done |]. by rewrite !append_cons, IH.
Qed.

Lemma prefix_append sub s :
  Stdlib.Strings.String.prefix sub s = true ↔ ∃ post, s = String.append sub post.
Proof.
  revert s. induction sub as [|a sub IH]; intros s.
  - split; [intros _; by exists s | by destruct s].
  - destruct s as [|b s]; simpl.
    + split; [done | by intros [post ?]].
    + destruct (Stdlib.Strings.Ascii.ascii_dec a b) as [<-|Hne].
      * rewrite IH. split; intros [post Hp]; exists post.
        -- by rewrite append_cons, Hp.
        -- rewrite append_cons in Hp. by injection Hp.
      * split; [done |]. intros [post Hp].
        rewrite append_cons in Hp. by injection Hp.
Qed.

Lemma includes_occurs s sub :
  includes s sub = true ↔
  ∃ pre post, s = String.append pre (String.append sub post).
Proof.
  induction s as [|a s IH].
  - cbn [includes]. rewrite orb_false_r, prefix_append. split.
    + intros [post Hp]. by exists "", post.
    + intros (pre & post & Hp). destruct pre; [by exists post | done].
  - cbn [includes]. rewrite orb_true_iff, prefix_append, IH. split.
    + intros [[post Hp] | (pre & post & Hp)].
      * by exists "", post.
      * exists (String a pre), post. by rewrite append_cons, Hp.
    + intros (pre & post & Hp). destruct pre as [|b pre].
      * left. by exists post.
      * right. rewrite append_cons in Hp. injection Hp as _ Hp.
        by exists pre, post.
Qed.

(** X21. A name is a cash account exactly when it contains Cash or Bank:
    the substring Petty Cash of the list adds nothing, since a name that
    contains it contains Cash. *)
Theorem petty_cash_is_redundant (name : string) :
  is_cash_account name = includes name "Cash" || includes name "Bank".
Proof.
  unfold is_cash_account, cashAccounts. cbn [existsb].
  rewrite orb_false_r.
  destruct (includes name "Cash") eqn:Hc; [done |].
  destruct (includes name "Petty Cash") eqn:Hp; [|by rewrite orb_false_r].
  apply includes_occurs in Hp as (pre & post & Hp).
  assert (includes name "Cash" = true) as Hc'; [|congruence].
  apply includes_occurs. exists (String.append pre "Petty "), post.
  by rewrite append_assoc_string.
Qed.
